(** * luv: event-loop control and poll-handle bindings

    A shallow embedding of [src/loop.c] and [src/poll.c].  The binding
    layer sits between a host interpreter (Lua) and a native event engine
    (libuv).  Neither of the two is part of the sources: the engine is an
    interface ([Engine]) whose primitives are arbitrary functions on an
    opaque loop state, and host callables are an interface ([Host]) whose
    bodies are arbitrary state transformers that may raise. *)

From stdpp Require Import gmap strings list pretty.

Open Scope Z_scope.

(** ** Host values and outcomes of binding functions *)

Inductive lua_value : Type :=
| LNil
| LBool (b : bool)
| LInt (n : Z)
| LStr (s : string)
| LFunction (f : nat)
| LUserdata (u : nat).

(** Errors that unwind to the nearest protected call ([lua_error]). *)
Inductive lua_error : Type :=
| ArgError (arg : nat) (msg : string)         (* luaL_argerror *)
| TypeError (arg : nat) (expected : string)   (* luaL_typeerror *)
| HostError (v : lua_value).                  (* error(v) in host code *)

(** A binding function returns the values it pushed, raises, or hits a
    failed C [assert] / undefined behaviour ([Fault]). *)
Inductive res (A : Type) : Type :=
| Ok (a : A)
| Throw (e : lua_error)
| Fault.
Arguments Ok {A} a.
Arguments Throw {A} e.
Arguments Fault {A}.

(** What a host callable does when it is called. *)
Inductive call_result : Type :=
| Returned (vs : list lua_value)
| Raised (e : lua_error).

(** Lines written to the process's standard error stream. *)
Inductive diag : Type :=
| DiagStatus (name msg : string)     (* "%s: %s\n" *)
| DiagUncaught (e : lua_error).

(** ** The bridge's per-handle record and the binding state *)

Inductive luv_callback_id : Type := LUV_CLOSED | LUV_POLL.

(** [luv_handle_t]: the registry reference of the wrapper and the callback
    slots. *)
Record luv_handle_t : Type := LuvHandle {
  ref : Z;
  cb_closed : option lua_value;
  cb_poll : option lua_value }.

Definition get_callback (d : luv_handle_t) (id : luv_callback_id) : option lua_value :=
  match id with LUV_CLOSED => cb_closed d | LUV_POLL => cb_poll d end.

Definition set_callback (d : luv_handle_t) (id : luv_callback_id) (v : lua_value) : luv_handle_t :=
  match id with
  | LUV_CLOSED => LuvHandle (ref d) (Some v) (cb_poll d)
  | LUV_POLL => LuvHandle (ref d) (cb_closed d) (Some v)
  end.

(** Everything the binding layer and host code can reach: the native loop
    [loop] (opaque, of type [E]), [ctx->mode], the [data] slot of every
    native handle, the metatable name of every wrapper, the interpreter's
    registry, the two allocators and the error stream. *)
Record luv_state (E : Type) : Type := LuvState {
  loop : E;
  mode : Z;
  hdata : gmap nat luv_handle_t;
  meta : gmap nat string;
  registry : gmap Z lua_value;
  next_ud : nat;
  next_ref : Z;
  stderr : list diag }.
Arguments LuvState {E}.
Arguments loop {E}.
Arguments mode {E}.
Arguments hdata {E}.
Arguments meta {E}.
Arguments registry {E}.
Arguments next_ud {E}.
Arguments next_ref {E}.
Arguments stderr {E}.

(** The state together with the record of host callables entered through
    the binding layer's protected call, oldest first. *)
Record World (E : Type) : Type := MkWorld {
  st : luv_state E;
  calls : list (lua_value * list lua_value) }.
Arguments MkWorld {E}.
Arguments st {E}.
Arguments calls {E}.

Definition upd {E} (f : luv_state E -> luv_state E) (w : World E) : World E :=
  MkWorld (f (st w)) (calls w).

Definition set_loop {E} (e : E) (s : luv_state E) : luv_state E :=
  LuvState e (mode s) (hdata s) (meta s) (registry s) (next_ud s) (next_ref s) (stderr s).
Definition set_mode {E} (m : Z) (s : luv_state E) : luv_state E :=
  LuvState (loop s) m (hdata s) (meta s) (registry s) (next_ud s) (next_ref s) (stderr s).
Definition set_hdata {E} (h : nat) (d : luv_handle_t) (s : luv_state E) : luv_state E :=
  LuvState (loop s) (mode s) (<[h := d]> (hdata s)) (meta s) (registry s)
           (next_ud s) (next_ref s) (stderr s).
Definition set_meta {E} (h : nat) (t : string) (s : luv_state E) : luv_state E :=
  LuvState (loop s) (mode s) (hdata s) (<[h := t]> (meta s)) (registry s)
           (next_ud s) (next_ref s) (stderr s).
Definition add_ref {E} (v : lua_value) (s : luv_state E) : luv_state E :=
  LuvState (loop s) (mode s) (hdata s) (meta s) (<[next_ref s := v]> (registry s))
           (next_ud s) (next_ref s + 1) (stderr s).
Definition bump_ud {E} (s : luv_state E) : luv_state E :=
  LuvState (loop s) (mode s) (hdata s) (meta s) (registry s)
           (S (next_ud s)) (next_ref s) (stderr s).
Definition log {E} (d : diag) (s : luv_state E) : luv_state E :=
  LuvState (loop s) (mode s) (hdata s) (meta s) (registry s)
           (next_ud s) (next_ref s) (stderr s ++ [d]).

(** ** A state-and-error monad for binding code *)

Definition M (E A : Type) : Type := World E -> World E * res A.

Definition ret {E A} (a : A) : M E A := fun w => (w, Ok a).
Definition throw {E A} (e : lua_error) : M E A := fun w => (w, Throw e).
Definition fault {E A} : M E A := fun w => (w, Fault).
Definition bind {E A B} (m : M E A) (k : A -> M E B) : M E B :=
  fun w => match m w with
           | (w', Ok a) => k a w'
           | (w', Throw e) => (w', Throw e)
           | (w', Fault) => (w', Fault)
           end.
Definition gets {E A} (f : luv_state E -> A) : M E A := fun w => (w, Ok (f (st w))).
Definition modify {E} (f : luv_state E -> luv_state E) : M E unit :=
  fun w => (upd f w, Ok tt).
Definition lift_res {E A} (r : lua_error + A) : M E A :=
  match r with inl e => throw e | inr a => ret a end.

Notation "'do' x <- m ; k" := (bind m (fun x => k))
  (at level 10, x name, m at level 100, k at level 200).
Notation "'step' m ; k" := (bind m (fun _ => k))
  (at level 10, m at level 100, k at level 200).

(** ** The two environments *)

(** The native engine, through the primitives the two source files call.
    [uv_run] dispatches trampolines while it runs, so it acts on the whole
    world; the other primitives act on the loop state.  Handles are named
    by the identity of their wrapper.  The constants are those of the
    engine's header. *)
Class Engine (E : Type) : Type := {
  uv_run : World E -> Z -> World E * Z;
  uv_backend_fd : E -> Z;
  uv_backend_timeout : E -> Z;
  uv_handle_queue : E -> list nat;
  uv_handle_type : E -> nat -> Z;
  uv_is_active : E -> nat -> bool;
  uv_poll_init : E -> nat -> Z -> E * Z;
  uv_poll_init_socket : E -> nat -> Z -> E * Z;
  uv_poll_start : E -> nat -> Z -> E * Z;
  uv_poll_stop : E -> nat -> E * Z;
  uv_err_name : Z -> string;
  uv_strerror : Z -> string;
  UV_POLL : Z;
  UV_READABLE : Z;
  UV_WRITABLE : Z;
  UV_DISCONNECT : Z;
  UV_PRIORITIZED : Z;
  UV_VERSION_HEX : Z }.

(** Host code: what calling the value [f] with [args] does. *)
Class Host (E : Type) : Type := {
  host_call : lua_value -> list lua_value -> luv_state E -> luv_state E * call_result }.

(** ** The interpreter's auxiliary library, as far as the sources use it *)

(** The value at stack index [i] (from 1) of a call with arguments
    [args]; [None] when the index is beyond the top. *)
Definition arg (args : list lua_value) (i : nat) : option lua_value :=
  match i with O => None | S j => args !! j end.

(** [lua_tolstring]: strings, and numbers in their decimal rendering. *)
Definition lua_tolstring (v : lua_value) : option string :=
  match v with
  | LStr s => Some s
  | LInt n => Some (pretty n)
  | _ => None
  end.

Definition luaL_checkstring (args : list lua_value) (i : nat) : lua_error + string :=
  match arg args i with
  | Some v => match lua_tolstring v with
              | Some s => inr s
              | None => inl (TypeError i "string")
              end
  | None => inl (TypeError i "string")
  end.

Definition luaL_optstring (args : list lua_value) (i : nat) (def : string)
  : lua_error + string :=
  match arg args i with
  | None | Some LNil => inr def
  | Some _ => luaL_checkstring args i
  end.

(** The C string that a host string is read as through its [char*]: the
    bytes before the first NUL. *)
Fixpoint c_str (s : string) : string :=
  match s with
  | EmptyString => EmptyString
  | String c rest => if Ascii.eqb c Ascii.zero then EmptyString else String c (c_str rest)
  end.

(** Index of the first entry of [lst] equal to [name], counting from [i]. *)
Fixpoint option_index (lst : list string) (name : string) (i : nat) : option nat :=
  match lst with
  | [] => None
  | o :: rest => if String.eqb o name then Some i else option_index rest name (S i)
  end.

Definition luaL_checkoption (args : list lua_value) (i : nat) (def : option string)
    (lst : list string) : lua_error + nat :=
  match (match def with
         | Some d => luaL_optstring args i d
         | None => luaL_checkstring args i
         end) with
  | inl e => inl e
  | inr name =>
      (* strcmp and the "%s" of the message read [name] as a C string *)
      match option_index lst (c_str name) 0 with
      | Some k => inr k
      | None => inl (ArgError i ("invalid option '" ++ c_str name ++ "'"))
      end
  end.

(** [luaL_checkinteger] on the values modelled here: an integer is
    accepted, anything else is a type error. *)
Definition luaL_checkinteger (args : list lua_value) (i : nat) : lua_error + Z :=
  match arg args i with
  | Some (LInt n) => inr n
  | _ => inl (TypeError i "number")
  end.

(** Conversion of a host integer to a C [int] (32 bits, two's complement). *)
Definition to_int (n : Z) : Z := (n + 2 ^ 31) mod 2 ^ 32 - 2 ^ 31.

(** [luaL_checktype (L, i, LUA_TFUNCTION)]. *)
Definition luaL_checkfunction (args : list lua_value) (i : nat) : lua_error + lua_value :=
  match arg args i with
  | Some (LFunction f) => inr (LFunction f)
  | _ => inl (TypeError i "function")
  end.

(** Entry [i] of a C array of strings closed by a [NULL] sentinel:
    [None] is the sentinel, an index outside the array is undefined. *)
Definition array_get (tbl : list string) (i : Z) : res (option string) :=
  if i <? 0 then Fault
  else match tbl !! Z.to_nat i with
       | Some s => Ok (Some s)
       | None => if i =? Z.of_nat (length tbl) then Ok None else Fault
       end.

(** [lua_pushstring]: a [NULL] pointer pushes nil. *)
Definition lua_pushstring (s : option string) : lua_value :=
  match s with Some s => LStr s | None => LNil end.

(** ** Helpers of the binding layer declared outside the two files *)

Section Binding.
Context {E : Type} `{!Engine E} `{!Host E}.

(** Modelled from the spec: [luv_error] is defined outside [src/]; a
    negative engine status becomes "a named-error value (code +
    human-readable string) ... returned to the caller as an explicit
    failure result - never thrown": nil, the message and the name. *)
Definition luv_error (status : Z) : M E (list lua_value) :=
  ret [LNil; LStr (uv_err_name status ++ ": " ++ uv_strerror status);
       LStr (uv_err_name status)].

(** Modelled from the spec: [luv_result] is defined outside [src/]; it
    is the error-or-status pattern that [luv_loop_close] writes inline. *)
Definition luv_result (status : Z) : M E (list lua_value) :=
  if status <? 0 then luv_error status else ret [LInt status].

(** Modelled from the spec: [ctx->pcall] is installed outside [src/].
    The host callable runs to completion; a failure raised inside it "is
    caught at this boundary and converted into a reported condition" and
    never unwinds further.  The result is the call's status. *)
Definition pcall (f : lua_value) (args : list lua_value) : M E Z :=
  fun w =>
    let '(s', r) := host_call f args (st w) in
    let w' := MkWorld s' (calls w ++ [(f, args)]) in
    match r with
    | Returned _ => (w', Ok 0)
    | Raised e => (upd (log (DiagUncaught e)) w', Ok 2)
    end.

(** Modelled from the spec: [luv_find_handle] is defined outside [src/];
    it is the bridge's [resolve], pushing the wrapper stored under the
    handle's registry reference (nil when the slot is empty). *)
Definition luv_find_handle (d : luv_handle_t) : M E lua_value :=
  do reg <- gets registry;
  ret (default LNil (reg !! ref d)).

(** ** [src/loop.c] *)

Definition luv_runmodes : list string := ["default"; "once"; "nowait"].

Definition luv_run (args : list lua_value) : M E (list lua_value) :=
  do m <- lift_res (luaL_checkoption args 1 (Some "default") luv_runmodes);
  step modify (set_mode (Z.of_nat m));
  do r <- (fun w => let '(w', r) := uv_run w (Z.of_nat m) in (w', Ok r));
  step modify (set_mode (-1));
  if r <? 0 then luv_error r
  else ret [LBool (negb (r =? 0))].

Definition luv_loop_mode (args : list lua_value) : M E (list lua_value) :=
  do m <- gets mode;
  if m =? -1 then ret [LNil]
  else do s <- (fun w => (w, array_get luv_runmodes m));
       ret [lua_pushstring s].

Definition luv_backend_fd (args : list lua_value) : M E (list lua_value) :=
  do r <- gets (fun s => uv_backend_fd (loop s));
  if r =? -1 then ret [LNil]
  else ret [LInt r].

Definition luv_backend_timeout (args : list lua_value) : M E (list lua_value) :=
  do r <- gets (fun s => uv_backend_timeout (loop s));
  ret [LInt r].

(** [luv_walk_cb (handle, arg)]: [args] is the stack of the enclosing
    [luv_walk] call, whose slot 1 holds the callable. *)
Definition luv_walk_cb (args : list lua_value) (h : nat) : M E unit :=
  do data <- gets (fun s => hdata s !! h);
  match data with
  | None => fault
  | Some d =>
      if negb (ref d <? 0x1000000) then fault
      else
        let f := default LNil (arg args 1) in
        do u <- luv_find_handle d;
        do _r <- pcall f [u];
        ret tt
  end.

(** Modelled from the spec: the engine's walk primitive "invoking a
    trampoline once per live handle"; the handles visited are those
    queued when the walk starts. *)
Fixpoint uv_walk_from (hs : list nat) (walk_cb : nat -> M E unit) : M E unit :=
  match hs with
  | [] => ret tt
  | h :: rest => step walk_cb h; uv_walk_from rest walk_cb
  end.

(** Modelled from the spec: [uv_walk] belongs to the engine; it takes
    the queue as it is when the walk starts, so handles the trampoline
    stops or closes stay in it and handles it creates are not visited. *)
Definition uv_walk (walk_cb : nat -> M E unit) : M E unit :=
  do hs <- gets (fun s => uv_handle_queue (loop s));
  uv_walk_from hs walk_cb.

Definition luv_walk (args : list lua_value) : M E (list lua_value) :=
  do _f <- lift_res (luaL_checkfunction args 1);
  step uv_walk (luv_walk_cb args);
  ret [].

(** ** [src/poll.c] *)

(** A call into an engine primitive that acts on the loop state. *)
Definition native {A} (f : E -> E * A) : M E A :=
  fun w => let '(e', a) := f (loop (st w)) in (upd (set_loop e') w, Ok a).

(** A C [switch]: control goes to the case whose label equals [x] (the
    labels of a switch are distinct constants), else to [default]. *)
Definition switch {K V} (eqb : K -> K -> bool) (x : K) (cases : list (K * V))
    (default : V) : V :=
  match find (fun c => eqb x (fst c)) cases with
  | Some c => snd c
  | None => default
  end.

(** Modelled from the spec: the version gate macro is declared outside
    [src/]; optional event kinds are "engine-version-gated": the gate for
    version major.minor.patch is open when the engine's version is at
    least that one. *)
Definition LUV_UV_VERSION_GEQ (major minor patch : Z) : bool :=
  Z.lor (Z.lor (Z.shiftl major 16) (Z.shiftl minor 8)) patch <=? UV_VERSION_HEX.

(** Modelled from the spec: [luv_checkudata] is defined outside [src/];
    "operating on a handle of the wrong type" is a usage error: the
    argument must be a wrapper whose metatable is the one named. *)
Definition luv_checkudata (args : list lua_value) (index : nat) (tname : string)
  : M E nat :=
  match arg args index with
  | Some (LUserdata u) =>
      do mt <- gets (fun s => meta s !! u);
      if bool_decide (mt = Some tname) then ret u
      else throw (TypeError index tname)
  | _ => throw (TypeError index tname)
  end.

Definition luv_check_poll (args : list lua_value) (index : nat) : M E nat :=
  do h <- luv_checkudata args index "uv_poll";
  do ty <- gets (fun s => uv_handle_type (loop s) h);
  do d <- gets (fun s => hdata s !! h);
  if (ty =? UV_POLL) && bool_decide (is_Some d) then ret h
  else throw (ArgError index "Expected uv_poll_t").

(** Modelled from the spec: [luv_newuserdata] is defined outside [src/];
    it allocates the native handle and pushes its (still untyped)
    wrapper. *)
Definition luv_newuserdata : M E nat :=
  do u <- gets next_ud;
  step modify bump_ud;
  ret u.

(** Modelled from the spec: the metatable a wrapper gets from the type
    of its handle; "uv_poll" is the one [luv_check_poll] asks for. *)
Definition handle_tname (ty : Z) : string :=
  if ty =? UV_POLL then "uv_poll" else "uv_handle".

(** Modelled from the spec: [luv_setup_handle] is defined outside
    [src/]; it is the bridge's [register]: the wrapper gets the metatable
    of its handle type and a registry reference, and the fresh
    [luv_handle_t] has empty callback slots. *)
Definition luv_setup_handle (h : nat) : M E luv_handle_t :=
  do ty <- gets (fun s => uv_handle_type (loop s) h);
  do r <- gets next_ref;
  step modify (set_meta h (handle_tname ty));
  step modify (add_ref (LUserdata h));
  ret (LuvHandle r None None).

Definition luv_new_poll (args : list lua_value) : M E (list lua_value) :=
  do n <- lift_res (luaL_checkinteger args 1);
  do h <- luv_newuserdata;
  do r <- native (fun e => uv_poll_init e h (to_int n));
  if r <? 0 then
    (* lua_pop (L, 1): the wrapper is dropped from the stack *)
    luv_error r
  else
    do d <- luv_setup_handle h;
    step modify (set_hdata h d);
    ret [LUserdata h].

Definition luv_new_socket_poll (args : list lua_value) : M E (list lua_value) :=
  do n <- lift_res (luaL_checkinteger args 1);
  do h <- luv_newuserdata;
  do r <- native (fun e => uv_poll_init_socket e h (to_int n));
  if r <? 0 then
    luv_error r
  else
    do d <- luv_setup_handle h;
    step modify (set_hdata h d);
    ret [LUserdata h].

Definition luv_pollevents : list string :=
  ["r"; "w"; "rw"]
  ++ (if LUV_UV_VERSION_GEQ 1 9 0 then ["d"; "rd"; "wd"; "rwd"] else [])
  ++ (if LUV_UV_VERSION_GEQ 1 14 0
      then ["p"; "rp"; "wp"; "rwp"; "dp"; "rdp"; "wdp"; "rwdp"] else []).

(** The cases of the switch in [luv_poll_cb], in source order. *)
Definition luv_poll_cb_cases : list (Z * string) :=
  [ (UV_READABLE, "r");
    (UV_WRITABLE, "w");
    (Z.lor UV_READABLE UV_WRITABLE, "rw") ]
  ++ (if LUV_UV_VERSION_GEQ 1 9 0 then
      [ (UV_DISCONNECT, "d");
        (Z.lor UV_READABLE UV_DISCONNECT, "rd");
        (Z.lor UV_WRITABLE UV_DISCONNECT, "wd");
        (Z.lor (Z.lor UV_READABLE UV_WRITABLE) UV_DISCONNECT, "rwd") ]
      else [])
  ++ (if LUV_UV_VERSION_GEQ 1 14 0 then
      [ (UV_PRIORITIZED, "p");
        (Z.lor UV_READABLE UV_PRIORITIZED, "rp");
        (Z.lor UV_WRITABLE UV_PRIORITIZED, "wp");
        (Z.lor (Z.lor UV_READABLE UV_WRITABLE) UV_PRIORITIZED, "rwp");
        (Z.lor UV_DISCONNECT UV_PRIORITIZED, "dp");
        (Z.lor (Z.lor UV_READABLE UV_DISCONNECT) UV_PRIORITIZED, "rdp");
        (Z.lor (Z.lor UV_WRITABLE UV_DISCONNECT) UV_PRIORITIZED, "wdp");
        (Z.lor (Z.lor (Z.lor UV_READABLE UV_WRITABLE) UV_DISCONNECT) UV_PRIORITIZED,
         "rwdp") ]
      else []).

(** Modelled from the spec: [luv_call_callback] is defined outside
    [src/]; it is the protocol's [invoke]: the callable in the slot for
    the event kind is called with the payload through the protected call,
    and "if no callback is registered, this is a no-op". *)
Definition luv_call_callback (d : luv_handle_t) (id : luv_callback_id)
    (payload : list lua_value) : M E unit :=
  match get_callback d id with
  | None => ret tt
  | Some f => do _r <- pcall f payload; ret tt
  end.

Definition luv_poll_cb (h : nat) (status events : Z) : M E unit :=
  do data <- gets (fun s => hdata s !! h);
  match data with
  | None => fault
  | Some d =>
      do err <- (if status <? 0 then
                   step modify (log (DiagStatus (uv_err_name status) (uv_strerror status)));
                   ret (LStr (uv_err_name status))
                 else ret LNil);
      let evtstr := switch Z.eqb events luv_poll_cb_cases "" in
      luv_call_callback d LUV_POLL [err; LStr evtstr]
  end.

(** The cases of the switch in [luv_poll_start], in source order. *)
Definition luv_poll_start_cases : list (nat * Z) :=
  [ (0%nat, UV_READABLE);
    (1%nat, UV_WRITABLE);
    (2%nat, Z.lor UV_READABLE UV_WRITABLE) ]
  ++ (if LUV_UV_VERSION_GEQ 1 9 0 then
      [ (3%nat, UV_DISCONNECT);
        (4%nat, Z.lor UV_READABLE UV_DISCONNECT);
        (5%nat, Z.lor UV_WRITABLE UV_DISCONNECT);
        (6%nat, Z.lor (Z.lor UV_READABLE UV_WRITABLE) UV_DISCONNECT) ]
      else [])
  ++ (if LUV_UV_VERSION_GEQ 1 14 0 then
      [ (7%nat, UV_PRIORITIZED);
        (8%nat, Z.lor UV_READABLE UV_PRIORITIZED);
        (9%nat, Z.lor UV_WRITABLE UV_PRIORITIZED);
        (10%nat, Z.lor (Z.lor UV_READABLE UV_WRITABLE) UV_PRIORITIZED);
        (11%nat, Z.lor UV_DISCONNECT UV_PRIORITIZED);
        (12%nat, Z.lor (Z.lor UV_READABLE UV_DISCONNECT) UV_PRIORITIZED);
        (13%nat, Z.lor (Z.lor UV_WRITABLE UV_DISCONNECT) UV_PRIORITIZED);
        (14%nat, Z.lor (Z.lor (Z.lor UV_READABLE UV_WRITABLE) UV_DISCONNECT)
                       UV_PRIORITIZED) ]
      else []).

(** Modelled from the spec: [luv_check_callback] is defined outside
    [src/]; the argument at [index] must be callable and "installs
    [callback] in the slot" of the event kind, replacing the previous
    one. *)
Definition luv_check_callback (args : list lua_value) (h : nat)
    (id : luv_callback_id) (index : nat) : M E unit :=
  match arg args index with
  | Some (LFunction f) =>
      modify (fun s => match hdata s !! h with
                       | Some d => set_hdata h (set_callback d id (LFunction f)) s
                       | None => s
                       end)
  | _ => throw (ArgError index "Expected callable")
  end.

Definition luv_poll_start (args : list lua_value) : M E (list lua_value) :=
  do h <- luv_check_poll args 1;
  do k <- lift_res (luaL_checkoption args 2 (Some "rw") luv_pollevents);
  let events := switch Nat.eqb k luv_poll_start_cases 0 in
  step luv_check_callback args h LUV_POLL 3;
  do r <- native (fun e => uv_poll_start e h events);
  luv_result r.

Definition luv_poll_stop (args : list lua_value) : M E (list lua_value) :=
  do h <- luv_check_poll args 1;
  do r <- native (fun e => uv_poll_stop e h);
  luv_result r.

End Binding.

(** ** Vocabulary of the specification *)

Section Vocabulary.
Context {E : Type} `{!Engine E} `{!Host E}.

(** [create (descriptor, mode)]: the mode selects the raw or the socket
    constructor, and with it the engine's init primitive. *)
Inductive poll_mode : Type := RawDescriptor | SocketDescriptor.

Definition create (md : poll_mode) : list lua_value -> M E (list lua_value) :=
  match md with
  | RawDescriptor => luv_new_poll
  | SocketDescriptor => luv_new_socket_poll
  end.

Definition native_init (md : poll_mode) : E -> nat -> Z -> E * Z :=
  match md with
  | RawDescriptor => uv_poll_init
  | SocketDescriptor => uv_poll_init_socket
  end.

(** The event mask the engine reports for a combination of readable,
    writable, disconnect and prioritized, and the label the specification
    gives to that combination. *)
Definition flag (b : bool) (f : Z) : Z := if b then f else 0.

Definition event_mask (r w d p : bool) : Z :=
  Z.lor (Z.lor (Z.lor (flag r UV_READABLE) (flag w UV_WRITABLE))
               (flag d UV_DISCONNECT))
        (flag p UV_PRIORITIZED).

Definition event_label (r w d p : bool) : string :=
  (if r then "r" else "") ++ (if w then "w" else "")
  ++ (if d then "d" else "") ++ (if p then "p" else "").

(** A value is a poll handle when it is a wrapper with the poll
    metatable whose native handle is a poll watch with bridge data. *)
Definition is_poll_handle (s : luv_state E) (v : lua_value) : Prop :=
  exists h, v = LUserdata h
            /\ meta s !! h = Some "uv_poll"
            /\ uv_handle_type (loop s) h = UV_POLL
            /\ is_Some (hdata s !! h).

(** The bridge is consistent on the handles [hs]: each has its data
    record, with a plausible reference under which the registry holds the
    handle's wrapper. *)
Definition bridge_ok (hs : list nat) (s : luv_state E) : Prop :=
  forall h, h ∈ hs ->
    exists d, hdata s !! h = Some d
              /\ ref d < 0x1000000
              /\ registry s !! ref d = Some (LUserdata h).

(** The state in which a protected call of [f] on [args] from [s] ends:
    the callable's effect, followed by the report of an uncaught error. *)
Definition after_call (f : lua_value) (args : list lua_value) (s : luv_state E)
  : luv_state E :=
  match host_call f args s with
  | (s', Returned _) => s'
  | (s', Raised e) => log (DiagUncaught e) s'
  end.

End Vocabulary.

(** ** A small reference engine and host

    One concrete environment, used to run the bindings on examples: the
    engine keeps a table of poll watches and the queue of its handles;
    the drive primitive reports a scripted status when one is set, and
    otherwise whether an active watch remains. *)

Module Ref.

Record watch : Type := Watch {
  w_type : Z;
  w_fd : Z;
  w_active : bool;
  w_events : Z }.

Record rloop : Type := RLoop {
  queue : list nat;
  watches : gmap nat watch;
  backend : Z;
  timeout : Z;
  scripted : option Z }.

Definition EBADF : Z := -9.
Definition EINVAL : Z := -22.

Definition set_watch (h : nat) (x : watch) (e : rloop) : rloop :=
  RLoop (queue e) (<[h := x]> (watches e)) (backend e) (timeout e) (scripted e).

Definition init (e : rloop) (h : nat) (fd : Z) : rloop * Z :=
  if fd <? 0 then (e, EBADF)
  else (RLoop (queue e ++ [h]) (<[h := Watch 8 fd false 0]> (watches e))
              (backend e) (timeout e) (scripted e), 0).

Definition start (e : rloop) (h : nat) (events : Z) : rloop * Z :=
  match watches e !! h with
  | Some x => (set_watch h (Watch (w_type x) (w_fd x) (negb (events =? 0)) events) e, 0)
  | None => (e, EINVAL)
  end.

Definition stop (e : rloop) (h : nat) : rloop * Z :=
  match watches e !! h with
  | Some x => (set_watch h (Watch (w_type x) (w_fd x) false 0) e, 0)
  | None => (e, 0)
  end.

Definition active (e : rloop) (h : nat) : bool :=
  match watches e !! h with Some x => w_active x | None => false end.

Definition drive (w : World rloop) (m : Z) : World rloop * Z :=
  match scripted (loop (st w)) with
  | Some r => (w, r)
  | None => (w, if existsb (active (loop (st w))) (queue (loop (st w))) then 1 else 0)
  end.

Definition err_name (status : Z) : string :=
  if status =? EBADF then "EBADF"
  else if status =? EINVAL then "EINVAL"
  else "UNKNOWN".

Definition err_text (status : Z) : string :=
  if status =? EBADF then "bad file descriptor"
  else if status =? EINVAL then "invalid argument"
  else "unknown error".

#[global] Instance engine : Engine rloop := {|
  uv_run := drive;
  uv_backend_fd := backend;
  uv_backend_timeout := timeout;
  uv_handle_queue := queue;
  uv_handle_type := fun e h => match watches e !! h with Some x => w_type x | None => 0 end;
  uv_is_active := active;
  uv_poll_init := init;
  uv_poll_init_socket := init;
  uv_poll_start := start;
  uv_poll_stop := stop;
  uv_err_name := err_name;
  uv_strerror := err_text;
  UV_POLL := 8;
  UV_READABLE := 1;
  UV_WRITABLE := 2;
  UV_DISCONNECT := 4;
  UV_PRIORITIZED := 8;
  UV_VERSION_HEX := 0x012C00 |}.

(** An engine older than 1.9.0: only readable and writable exist. *)
Definition minimal : Engine rloop := {|
  uv_run := drive;
  uv_backend_fd := backend;
  uv_backend_timeout := timeout;
  uv_handle_queue := queue;
  uv_handle_type := fun e h => match watches e !! h with Some x => w_type x | None => 0 end;
  uv_is_active := active;
  uv_poll_init := init;
  uv_poll_init_socket := init;
  uv_poll_start := start;
  uv_poll_stop := stop;
  uv_err_name := err_name;
  uv_strerror := err_text;
  UV_POLL := 8;
  UV_READABLE := 1;
  UV_WRITABLE := 2;
  UV_DISCONNECT := 4;
  UV_PRIORITIZED := 8;
  UV_VERSION_HEX := 0x010800 |}.

(** Host callables: 0 returns; 1 raises; 2 stops the handle it is given
    and then raises; any other value cannot be called. *)
Definition call (f : lua_value) (args : list lua_value) (s : luv_state rloop)
  : luv_state rloop * call_result :=
  match f with
  | LFunction 0 => (s, Returned [])
  | LFunction 1 => (s, Raised (HostError (LStr "boom")))
  | LFunction 2 =>
      (st (fst (luv_poll_stop args (MkWorld s []))), Raised (HostError (LStr "stopped")))
  | _ => (s, Raised (HostError (LStr "attempt to call a non-function value")))
  end.

#[global] Instance host : Host rloop := {| host_call := call |}.

Definition loop0 : rloop := RLoop [] ∅ 5 (-1) None.

Definition world0 : World rloop :=
  MkWorld (LuvState loop0 (-1) ∅ ∅ ∅ 0 1 []) [].

(** The world after [n] successful [new_poll] calls on descriptors
    10, 11, ... *)
Fixpoint with_polls (n : nat) : World rloop :=
  match n with
  | O => world0
  | S k => fst (luv_new_poll [LInt (10 + Z.of_nat k)] (with_polls k))
  end.

(** One poll handle, started with the default mask and the callable
    numbered [f]. *)
Definition started (f : nat) : World rloop :=
  fst (luv_poll_start [LUserdata 0; LNil; LFunction f] (with_polls 1)).

(** A loop whose next drive reports EINVAL. *)
Definition failing : World rloop :=
  MkWorld (LuvState (RLoop [] ∅ 5 (-1) (Some EINVAL)) (-1) ∅ ∅ ∅ 0 1 []) [].

End Ref.

(** ** The rest of [src/loop.c], and [src/metrics.c] *)

(** The engine primitives the remaining entry points call.  The two
    clock readings are [uint64_t]; [uv_loop_configure] is variadic, its
    optional third argument being the signal number. *)
Class LoopEngine (E : Type) : Type := {
  uv_loop_close : E -> E * Z;
  uv_loop_alive : E -> Z;
  uv_stop : E -> E;
  uv_now : E -> Z;
  uv_update_time : E -> E;
  uv_loop_configure : E -> Z -> option Z -> E * Z;
  uv_metrics_idle_time : E -> Z;
  UV_LOOP_BLOCK_SIGNAL : Z;
  UV_METRICS_IDLE_TIME : Z }.

(** Two helpers of the binding layer that are declared outside [src/]
    and are taken as they are: [luv_set_loop (L, loop)], where [None] is
    the [NULL] pointer, and [luv_parse_signal (L, slot)] on the value in
    that slot. *)
Class Helpers (E : Type) : Type := {
  luv_set_loop : option E -> luv_state E -> luv_state E;
  luv_parse_signal : lua_value -> Z }.

(** [lua_pushinteger] of a [uint64_t]: the conversion to the host's
    signed 64-bit integer keeps the value modulo 2^64. *)
Definition lua_Integer_of_uint64 (u : Z) : Z := (u + 2 ^ 63) mod 2 ^ 64 - 2 ^ 63.

(** [lua_isstring]: true for a string or a number. *)
Definition lua_isstring (v : option lua_value) : bool :=
  match v with
  | Some (LStr _) | Some (LInt _) => true
  | _ => false
  end.

Section LoopRest.
Context {E : Type} `{!Engine E} `{!LoopEngine E} `{!Helpers E}.

Definition luv_loop_close (args : list lua_value) : M E (list lua_value) :=
  do r <- native uv_loop_close;
  if r <? 0 then luv_error r
  else
    step modify (luv_set_loop None);
    ret [LInt r].

Definition luv_loop_alive (args : list lua_value) : M E (list lua_value) :=
  do r <- gets (fun s => uv_loop_alive (loop s));
  if r <? 0 then luv_error r
  else ret [LBool (negb (r =? 0))].

Definition luv_stop (args : list lua_value) : M E (list lua_value) :=
  step modify (fun s => set_loop (uv_stop (loop s)) s);
  ret [].

Definition luv_now (args : list lua_value) : M E (list lua_value) :=
  do now <- gets (fun s => uv_now (loop s));
  ret [LInt (lua_Integer_of_uint64 now)].

Definition luv_update_time (args : list lua_value) : M E (list lua_value) :=
  step modify (fun s => set_loop (uv_update_time (loop s)) s);
  ret [].

(** The whole of [luv_loop_configure] is compiled for engines from
    1.0.2 on. *)
Definition luv_loop_configure_options : list string :=
  ["block_signal"]
  ++ (if LUV_UV_VERSION_GEQ 1 39 0 then ["metrics_idle_time"] else []).

(** The cases of the switch in [luv_loop_configure], in source order. *)
Definition luv_loop_configure_cases : list (nat * Z) :=
  [ (0%nat, UV_LOOP_BLOCK_SIGNAL) ]
  ++ (if LUV_UV_VERSION_GEQ 1 39 0 then [ (1%nat, UV_METRICS_IDLE_TIME) ] else []).

Definition luv_loop_configure (args : list lua_value) : M E (list lua_value) :=
  do k <- lift_res (luaL_checkoption args 1 None luv_loop_configure_options);
  let option := switch Nat.eqb k luv_loop_configure_cases 0 in
  do r <- (if option =? UV_LOOP_BLOCK_SIGNAL then
             if lua_isstring (arg args 2) then
               let signal := luv_parse_signal (default LNil (arg args 2)) in
               native (fun e => uv_loop_configure e UV_LOOP_BLOCK_SIGNAL (Some signal))
             else
               throw (ArgError 2 "block_signal option: expected signal as string or number")
           else native (fun e => uv_loop_configure e option None));
  luv_result r.

(** [src/metrics.c]; compiled for engines from 1.39.0 on. *)
Definition luv_metrics_idle_time (args : list lua_value) : M E (list lua_value) :=
  do idle_time <- gets (fun s => uv_metrics_idle_time (loop s));
  ret [LInt (lua_Integer_of_uint64 idle_time)].

(** *** Vocabulary for the properties of these entry points *)

(** The entry points that dispatch no host code and make no handle. *)
Inductive control_entry : Type :=
| LoopAlive | Stop | BackendFd | BackendTimeout | Now | UpdateTime
| LoopMode | LoopConfigure | MetricsIdleTime | PollStop.

Definition run_entry (c : control_entry) : list lua_value -> M E (list lua_value) :=
  match c with
  | LoopAlive => luv_loop_alive
  | Stop => luv_stop
  | BackendFd => luv_backend_fd
  | BackendTimeout => luv_backend_timeout
  | Now => luv_now
  | UpdateTime => luv_update_time
  | LoopMode => luv_loop_mode
  | LoopConfigure => luv_loop_configure
  | MetricsIdleTime => luv_metrics_idle_time
  | PollStop => luv_poll_stop
  end.

(** Those among them that only read the loop. *)
Definition is_query (c : control_entry) : bool :=
  match c with
  | LoopAlive | BackendFd | BackendTimeout | Now | LoopMode | MetricsIdleTime => true
  | _ => false
  end.

End LoopRest.

(** Everything but the native loop is the same in two worlds. *)
Definition same_bridge {E} (w w' : World E) : Prop :=
  mode (st w') = mode (st w)
  /\ hdata (st w') = hdata (st w)
  /\ meta (st w') = meta (st w)
  /\ registry (st w') = registry (st w)
  /\ next_ud (st w') = next_ud (st w)
  /\ next_ref (st w') = next_ref (st w)
  /\ stderr (st w') = stderr (st w)
  /\ calls w' = calls w.

(** The handle passes the sanity check of [luv_walk_cb]. *)
Definition luv_handle_sane {E} (s : luv_state E) (h : nat) : bool :=
  match hdata s !! h with
  | Some d => ref d <? 0x1000000
  | None => false
  end.

(** The handles a walk reaches before the first one that fails the
    check. *)
Fixpoint sane_prefix {E} (s : luv_state E) (hs : list nat) : list nat :=
  match hs with
  | [] => []
  | h :: rest => if luv_handle_sane s h then h :: sane_prefix s rest else []
  end.

(** ** A reference engine with a clock

    The reference engine, extended by the loop's cached time, its idle
    counter, the stop flag, and the options set by configure. *)

Module Clocked.

Record cloop : Type := CLoop {
  base : Ref.rloop;
  clock : Z;
  idle : Z;
  stopping : bool;
  detached : bool;
  blocked : option Z;
  accounting : bool }.

Definition with_base (b : Ref.rloop) (e : cloop) : cloop :=
  CLoop b (clock e) (idle e) (stopping e) (detached e) (blocked e) (accounting e).

Definition lift {A} (f : Ref.rloop -> Ref.rloop * A) (e : cloop) : cloop * A :=
  (with_base (fst (f (base e))) e, snd (f (base e))).

Definition EBUSY : Z := -16.
Definition SIGPROF : Z := 27.
Definition SIGTERM : Z := 15.

Definition alive (e : cloop) : bool :=
  existsb (Ref.active (base e)) (Ref.queue (base e)).

Definition drive (w : World cloop) (m : Z) : World cloop * Z :=
  (w, if alive (loop (st w)) then 1 else 0).

Definition close (e : cloop) : cloop * Z :=
  match Ref.queue (base e) with
  | [] => (e, 0)
  | _ :: _ => (e, EBUSY)
  end.

Definition configure (e : cloop) (opt : Z) (signal : option Z) : cloop * Z :=
  if opt =? 0 then
    match signal with
    | Some n => if n =? SIGPROF
                then (CLoop (base e) (clock e) (idle e) (stopping e) (detached e)
                            (Some n) (accounting e), 0)
                else (e, Ref.EINVAL)
    | None => (e, Ref.EINVAL)
    end
  else if opt =? 1 then
    (CLoop (base e) (clock e) (idle e) (stopping e) (detached e) (blocked e) true, 0)
  else (e, Ref.EINVAL).

#[global] Instance engine : Engine cloop := {|
  uv_run := drive;
  uv_backend_fd := fun e => Ref.backend (base e);
  uv_backend_timeout := fun e => Ref.timeout (base e);
  uv_handle_queue := fun e => Ref.queue (base e);
  uv_handle_type := fun e h =>
    match Ref.watches (base e) !! h with Some x => Ref.w_type x | None => 0 end;
  uv_is_active := fun e => Ref.active (base e);
  uv_poll_init := fun e h fd => lift (fun b => Ref.init b h fd) e;
  uv_poll_init_socket := fun e h fd => lift (fun b => Ref.init b h fd) e;
  uv_poll_start := fun e h ev => lift (fun b => Ref.start b h ev) e;
  uv_poll_stop := fun e h => lift (fun b => Ref.stop b h) e;
  uv_err_name := fun r => if r =? EBUSY then "EBUSY" else Ref.err_name r;
  uv_strerror := fun r => if r =? EBUSY then "resource busy or locked" else Ref.err_text r;
  UV_POLL := 8;
  UV_READABLE := 1;
  UV_WRITABLE := 2;
  UV_DISCONNECT := 4;
  UV_PRIORITIZED := 8;
  UV_VERSION_HEX := 0x012C00 |}.

(** The same engine at version 1.38.0, which has no idle-time option. *)
Definition older : Engine cloop := {|
  uv_run := drive;
  uv_backend_fd := fun e => Ref.backend (base e);
  uv_backend_timeout := fun e => Ref.timeout (base e);
  uv_handle_queue := fun e => Ref.queue (base e);
  uv_handle_type := fun e h =>
    match Ref.watches (base e) !! h with Some x => Ref.w_type x | None => 0 end;
  uv_is_active := fun e => Ref.active (base e);
  uv_poll_init := fun e h fd => lift (fun b => Ref.init b h fd) e;
  uv_poll_init_socket := fun e h fd => lift (fun b => Ref.init b h fd) e;
  uv_poll_start := fun e h ev => lift (fun b => Ref.start b h ev) e;
  uv_poll_stop := fun e h => lift (fun b => Ref.stop b h) e;
  uv_err_name := fun r => if r =? EBUSY then "EBUSY" else Ref.err_name r;
  uv_strerror := fun r => if r =? EBUSY then "resource busy or locked" else Ref.err_text r;
  UV_POLL := 8;
  UV_READABLE := 1;
  UV_WRITABLE := 2;
  UV_DISCONNECT := 4;
  UV_PRIORITIZED := 8;
  UV_VERSION_HEX := 0x012600 |}.

#[global] Instance loop_engine : LoopEngine cloop := {|
  uv_loop_close := close;
  uv_loop_alive := fun e => if alive e then 1 else 0;
  uv_stop := fun e => CLoop (base e) (clock e) (idle e) true (detached e)
                            (blocked e) (accounting e);
  uv_now := clock;
  uv_update_time := fun e => CLoop (base e) (clock e + 1) (idle e) (stopping e)
                                   (detached e) (blocked e) (accounting e);
  uv_loop_configure := configure;
  uv_metrics_idle_time := idle;
  UV_LOOP_BLOCK_SIGNAL := 0;
  UV_METRICS_IDLE_TIME := 1 |}.

#[global] Instance helpers : Helpers cloop := {|
  luv_set_loop := fun o s =>
    match o with
    | Some e => set_loop e s
    | None => set_loop (CLoop (base (loop s)) (clock (loop s)) (idle (loop s))
                              (stopping (loop s)) true (blocked (loop s))
                              (accounting (loop s))) s
    end;
  luv_parse_signal := fun v =>
    match v with
    | LInt n => n
    | LStr s => if String.eqb s "sigprof" then SIGPROF else SIGTERM
    | _ => SIGTERM
    end |}.

Definition loop0 (t : Z) : cloop := CLoop Ref.loop0 t 0 false false None false.

Definition world0 (t : Z) : World cloop :=
  MkWorld (LuvState (loop0 t) (-1) ∅ ∅ ∅ 0 1 []) [].

(** One poll handle on descriptor 10. *)
Definition one_poll (t : Z) : World cloop := fst (luv_new_poll [LInt 10] (world0 t)).

End Clocked.

(** ** Two more worlds for the examples *)

Module Variants.

(** The reference engine, except that it cannot watch for disconnects:
    a start whose mask has that bit fails. *)
Definition no_disconnect : Engine Ref.rloop := {|
  uv_run := Ref.drive;
  uv_backend_fd := Ref.backend;
  uv_backend_timeout := Ref.timeout;
  uv_handle_queue := Ref.queue;
  uv_handle_type := fun e h =>
    match Ref.watches e !! h with Some x => Ref.w_type x | None => 0 end;
  uv_is_active := Ref.active;
  uv_poll_init := Ref.init;
  uv_poll_init_socket := Ref.init;
  uv_poll_start := fun e h ev =>
    if Z.testbit ev 2 then (e, Ref.EINVAL) else Ref.start e h ev;
  uv_poll_stop := Ref.stop;
  uv_err_name := Ref.err_name;
  uv_strerror := Ref.err_text;
  UV_POLL := 8;
  UV_READABLE := 1;
  UV_WRITABLE := 2;
  UV_DISCONNECT := 4;
  UV_PRIORITIZED := 8;
  UV_VERSION_HEX := 0x012C00 |}.

(** The reference engine, except for its timeout query: it answers 0
    when no watch is active (a drive would not wait), and the stored
    timeout otherwise. *)
Definition idle_zero : Engine Ref.rloop := {|
  uv_run := Ref.drive;
  uv_backend_fd := Ref.backend;
  uv_backend_timeout := fun e =>
    if existsb (Ref.active e) (Ref.queue e) then Ref.timeout e else 0;
  uv_handle_queue := Ref.queue;
  uv_handle_type := fun e h =>
    match Ref.watches e !! h with Some x => Ref.w_type x | None => 0 end;
  uv_is_active := Ref.active;
  uv_poll_init := Ref.init;
  uv_poll_init_socket := Ref.init;
  uv_poll_start := Ref.start;
  uv_poll_stop := Ref.stop;
  uv_err_name := Ref.err_name;
  uv_strerror := Ref.err_text;
  UV_POLL := 8;
  UV_READABLE := 1;
  UV_WRITABLE := 2;
  UV_DISCONNECT := 4;
  UV_PRIORITIZED := 8;
  UV_VERSION_HEX := 0x012C00 |}.

(** Two poll handles made through the binding, and a third handle, 7,
    that the engine has in its queue but the binding did not make. *)
Definition with_foreign_handle : World Ref.rloop :=
  upd (fun s => set_loop (fst (Ref.init (loop s) 7 20)) s) (Ref.with_polls 2).

End Variants.

(** * Properties *)

Ltac unfold_monad :=
  unfold bind, ret, throw, fault, gets, modify, lift_res, native in *.

(** ** Option tables *)

Lemma option_index_none lst name i :
  name ∉ lst -> option_index lst name i = None.
Proof.
  revert i. induction lst as [|o rest IH]; intros i Hnot; simpl; [reflexivity|].
  destruct (String.eqb_spec o name) as [->|Hne].
  - exfalso. apply Hnot. left.
  - apply IH. intros Hin. apply Hnot. by right.
Qed.

Lemma checkoption_invalid args i def lst name :
  arg args i = Some (LStr name) -> c_str name ∉ lst ->
  luaL_checkoption args i (Some def) lst
  = inl (ArgError i ("invalid option '" ++ c_str name ++ "'")).
Proof.
  intros Harg Hnot. unfold luaL_checkoption, luaL_optstring, luaL_checkstring.
  rewrite Harg. simpl. by rewrite option_index_none.
Qed.

Lemma checkoption_runmode k name rest :
  luv_runmodes !! k = Some name ->
  luaL_checkoption (LStr name :: rest) 1 (Some "default") luv_runmodes = inr k.
Proof.
  destruct k as [|[|[|k]]]; simpl; intros [= <-]; reflexivity.
Qed.

Section Loop.
Context {E : Type} `{!Engine E}.

(** What [luv_run] does once its mode argument has been accepted. *)
Lemma luv_run_unfold (w w1 : World E) (k : nat) (name : string) (rest : list lua_value) (r : Z) :
  luv_runmodes !! k = Some name ->
  uv_run (upd (set_mode (Z.of_nat k)) w) (Z.of_nat k) = (w1, r) ->
  luv_run (LStr name :: rest) w
  = (upd (set_mode (-1)) w1,
     Ok (if r <? 0
         then [LNil; LStr (uv_err_name r ++ ": " ++ uv_strerror r); LStr (uv_err_name r)]
         else [LBool (negb (r =? 0))])).
Proof.
  intros Hk Hrun. unfold luv_run. rewrite (checkoption_runmode _ _ _ Hk).
  unfold_monad. simpl. rewrite Hrun. unfold luv_error, ret. by destruct (r <? 0).
Qed.

(** C4. For each of the modes default, once and nowait, [luv_run] enters
    the engine's drive primitive in a world whose mode register holds that
    mode, where the mode query answers the mode's name; whatever status
    the primitive returns (success or error), [luv_run] returns with the
    register reset to -1, where the mode query answers nil. *)
Theorem luv_run_sets_and_resets_mode (w w1 : World E) (k : nat) (name : string)
    (rest qargs : list lua_value) (r : Z) :
  luv_runmodes !! k = Some name ->
  uv_run (upd (set_mode (Z.of_nat k)) w) (Z.of_nat k) = (w1, r) ->
  let entered := upd (set_mode (Z.of_nat k)) w in
  let returned := fst (luv_run (LStr name :: rest) w) in
  mode (st entered) = Z.of_nat k
  /\ luv_loop_mode qargs entered = (entered, Ok [LStr name])
  /\ returned = upd (set_mode (-1)) w1
  /\ (exists vs, snd (luv_run (LStr name :: rest) w) = Ok vs)
  /\ mode (st returned) = -1
  /\ luv_loop_mode qargs returned = (returned, Ok [LNil]).
Proof.
  intros Hk Hrun entered returned.
  assert (Hret : returned = upd (set_mode (-1)) w1).
  { unfold returned. by rewrite (luv_run_unfold _ _ _ _ _ _ Hk Hrun). }
  split; [reflexivity|]. split.
  - unfold luv_loop_mode, entered. unfold_monad. simpl.
    destruct k as [|[|[|k]]]; simpl in Hk; inversion Hk; subst; reflexivity.
  - split; [exact Hret|]. split.
    + rewrite (luv_run_unfold _ _ _ _ _ _ Hk Hrun). simpl. eauto.
    + rewrite Hret. split; reflexivity.
Qed.

(** C5. [luv_run] answers with a boolean that is true exactly when the
    drive primitive's status is positive (more callbacks expected) and
    false when it is zero; a negative status is answered with the named
    error (nil, message, name) and no boolean. *)
Theorem luv_run_result (w w1 : World E) (k : nat) (name : string)
    (rest : list lua_value) (r : Z) :
  luv_runmodes !! k = Some name ->
  uv_run (upd (set_mode (Z.of_nat k)) w) (Z.of_nat k) = (w1, r) ->
  let answer := snd (luv_run (LStr name :: rest) w) in
  (0 < r -> answer = Ok [LBool true])
  /\ (r = 0 -> answer = Ok [LBool false])
  /\ (r < 0 ->
      answer = Ok [LNil; LStr (uv_err_name r ++ ": " ++ uv_strerror r);
                   LStr (uv_err_name r)])
  /\ (answer = Ok [LBool true] <-> 0 < r)
  /\ ((exists b, answer = Ok [LBool b]) <-> 0 <= r).
Proof.
  intros Hk Hrun answer. unfold answer.
  rewrite (luv_run_unfold _ _ _ _ _ _ Hk Hrun). simpl.
  destruct (Z.ltb_spec r 0) as [Hneg|Hpos]; destruct (Z.eqb_spec r 0) as [Hz|Hnz];
    simpl; repeat split; intros; try lia; try congruence; eauto;
    match goal with
    | H : exists _, _ |- _ => destruct H; congruence
    | _ => idtac
    end.
Qed.

(** C9 (as amended). [luv_backend_fd] answers the engine's descriptor
    as an integer, and nil exactly when the engine's query gives -1;
    [luv_backend_timeout] answers the engine's timeout as an integer
    unchanged, whatever it is: the engine's no-timeout value -1 is
    answered as the integer -1, and the binding makes no -1 of its own.
    Neither changes the state. *)
Theorem luv_backend_queries (w : World E) (args : list lua_value) :
  let fd := uv_backend_fd (loop (st w)) in
  let t := uv_backend_timeout (loop (st w)) in
  (fd <> -1 -> luv_backend_fd args w = (w, Ok [LInt fd]))
  /\ (luv_backend_fd args w = (w, Ok [LNil]) <-> fd = -1)
  /\ luv_backend_timeout args w = (w, Ok [LInt t])
  /\ (t = -1 -> luv_backend_timeout args w = (w, Ok [LInt (-1)])).
Proof.
  intros fd t. unfold luv_backend_fd, luv_backend_timeout. unfold_monad. simpl.
  fold fd. fold t.
  destruct (Z.eqb_spec fd (-1)) as [Hfd|Hfd].
  - repeat split; intros; try congruence.
  - repeat split; intros; try congruence.
Qed.

End Loop.

Section Poll.
Context {E : Type} `{!Engine E}.

(** ** Argument checks *)

(** The poll check never changes the state: it returns the handle of a
    poll handle and raises on anything else. *)
Lemma luv_check_poll_accepts (w : World E) (h : nat) (rest : list lua_value) :
  is_poll_handle (st w) (LUserdata h) ->
  luv_check_poll (LUserdata h :: rest) 1 w = (w, Ok h).
Proof.
  intros (h' & [= <-] & Hmeta & Hty & Hd).
  unfold luv_check_poll, luv_checkudata. unfold_monad. simpl.
  rewrite Hmeta. rewrite bool_decide_eq_true_2 by reflexivity. simpl.
  rewrite Hty, Z.eqb_refl. by rewrite bool_decide_eq_true_2.
Qed.

Lemma luv_check_poll_rejects (w : World E) (v : lua_value) (rest : list lua_value) :
  ~ is_poll_handle (st w) v ->
  exists e, luv_check_poll (v :: rest) 1 w = (w, Throw e).
Proof.
  intros Hnot. unfold luv_check_poll, luv_checkudata. unfold_monad. simpl.
  destruct v as [| | | | |u]; simpl; eauto.
  destruct (bool_decide_reflect (meta (st w) !! u = Some "uv_poll")) as [Hmeta|Hmeta];
    simpl; eauto.
  destruct (Z.eqb_spec (uv_handle_type (loop (st w)) u) UV_POLL) as [Hty|Hty];
    simpl; eauto.
  destruct (bool_decide_reflect (is_Some (hdata (st w) !! u))) as [Hd|Hd];
    simpl; eauto.
  exfalso. apply Hnot. exists u. auto.
Qed.

Lemma luv_check_poll_pure (w : World E) (args : list lua_value) :
  (exists h, luv_check_poll args 1 w = (w, Ok h))
  \/ (exists e, luv_check_poll args 1 w = (w, Throw e)).
Proof.
  destruct args as [|v rest].
  - right. unfold luv_check_poll, luv_checkudata. unfold_monad. simpl. eauto.
  - destruct v as [| | | | |u];
      try (right; unfold luv_check_poll, luv_checkudata; unfold_monad; simpl; eauto; fail).
    unfold luv_check_poll, luv_checkudata. unfold_monad. simpl.
    destruct (bool_decide (meta (st w) !! u = Some "uv_poll")); simpl; eauto.
    destruct ((uv_handle_type (loop (st w)) u =? UV_POLL)
              && bool_decide (is_Some (hdata (st w) !! u))); eauto.
Qed.

(** C6 (as amended). A mode string whose text up to its first NUL is
    outside the run-mode table makes [luv_run] raise; an event-mask
    string whose text up to its first NUL is outside the table of labels
    this engine supports makes [luv_poll_start] raise; a first argument
    that is not a poll handle makes [luv_poll_start] and [luv_poll_stop]
    raise.  In each case the world returned with the error is the world
    of the call: no engine primitive has acted on the loop and no handle
    or bridge state has changed. *)
Theorem usage_errors_leave_world (w : World E) (name mask : string) (v u : lua_value)
    (rest rest' cbs : list lua_value) :
  c_str name ∉ luv_runmodes ->
  c_str mask ∉ luv_pollevents ->
  ~ is_poll_handle (st w) v ->
  luv_run (LStr name :: rest) w
    = (w, Throw (ArgError 1 ("invalid option '" ++ c_str name ++ "'")))
  /\ (exists e, luv_poll_start (u :: LStr mask :: cbs) w = (w, Throw e))
  /\ (is_poll_handle (st w) u ->
      luv_poll_start (u :: LStr mask :: cbs) w
      = (w, Throw (ArgError 2 ("invalid option '" ++ c_str mask ++ "'"))))
  /\ (exists e, luv_poll_start (v :: rest') w = (w, Throw e))
  /\ (exists e, luv_poll_stop (v :: rest') w = (w, Throw e)).
Proof.
  intros Hname Hmask Hv.
  assert (Hopt : luaL_checkoption (u :: LStr mask :: cbs) 2 (Some "rw") luv_pollevents
                 = inl (ArgError 2 ("invalid option '" ++ c_str mask ++ "'"))).
  { by apply checkoption_invalid. }
  split; [|split; [|split; [|split]]].
  - unfold luv_run. rewrite (checkoption_invalid _ 1 _ _ name); [reflexivity|reflexivity|done].
  - unfold luv_poll_start.
    destruct (luv_check_poll_pure w (u :: LStr mask :: cbs)) as [[h Hc]|[e Hc]].
    + unfold bind at 1. rewrite Hc. rewrite Hopt. unfold_monad. eauto.
    + unfold bind at 1. rewrite Hc. eauto.
  - intros Hu. destruct Hu as (h & -> & Hrest).
    unfold luv_poll_start. unfold bind at 1.
    rewrite luv_check_poll_accepts by (exists h; auto).
    rewrite Hopt. reflexivity.
  - destruct (luv_check_poll_rejects w v rest' Hv) as [e He].
    exists e. unfold luv_poll_start. unfold bind at 1. by rewrite He.
  - destruct (luv_check_poll_rejects w v rest' Hv) as [e He].
    exists e. unfold luv_poll_stop. unfold bind at 1. by rewrite He.
Qed.

(** ** Creation *)

(** C7. Whatever the descriptor and the mode: when the engine's init
    primitive reports a negative status, [create] answers the named
    error, and the bridge is as before - no data record, no metatable and
    no registry reference were made for the handle; when it reports
    success, [create] answers the wrapper, whose handle now carries its
    data record and whose registry reference leads back to the wrapper. *)
Theorem create_poll_outcomes (md : poll_mode) (w : World E) (fd : Z)
    (rest : list lua_value) (e' : E) (r : Z) :
  native_init md (loop (st w)) (next_ud (st w)) (to_int fd) = (e', r) ->
  let h := next_ud (st w) in
  let failed := upd (set_loop e') (upd bump_ud w) in
  (r < 0 ->
     create md (LInt fd :: rest) w
     = (failed, Ok [LNil; LStr (uv_err_name r ++ ": " ++ uv_strerror r);
                    LStr (uv_err_name r)])
     /\ hdata (st failed) = hdata (st w)
     /\ meta (st failed) = meta (st w)
     /\ registry (st failed) = registry (st w))
  /\ (0 <= r ->
      exists w2 d,
        create md (LInt fd :: rest) w = (w2, Ok [LUserdata h])
        /\ loop (st w2) = e'
        /\ hdata (st w2) !! h = Some d
        /\ registry (st w2) !! ref d = Some (LUserdata h)
        /\ meta (st w2) !! h = Some (handle_tname (uv_handle_type e' h))
        /\ get_callback d LUV_POLL = None).
Proof.
  intros Hinit h failed. split.
  - intros Hneg. split; [|by repeat split].
    destruct md; simpl in Hinit |- *;
      unfold luv_new_poll, luv_new_socket_poll, luv_newuserdata; unfold_monad; simpl;
      rewrite Hinit; simpl;
      destruct (Z.ltb_spec r 0); [reflexivity|lia|reflexivity|lia].
  - intros Hpos.
    eexists _, (LuvHandle (next_ref (st w)) None None).
    split.
    + destruct md; simpl in Hinit |- *;
        unfold luv_new_poll, luv_new_socket_poll, luv_newuserdata, luv_setup_handle;
        unfold_monad; simpl; rewrite Hinit; simpl;
        (destruct (Z.ltb_spec r 0); [lia|reflexivity]).
    + simpl. repeat split.
      * apply lookup_insert_eq.
      * apply lookup_insert_eq.
      * apply lookup_insert_eq.
Qed.

(** ** Starting and stopping *)

(** C10. With the event-mask argument absent or nil, [luv_poll_start]
    does what it does for the mask "rw": on a poll handle with a callable
    third argument it installs the callable and starts the engine's watch
    for readable and writable together. *)
Theorem poll_start_default_mask (w : World E) (v : lua_value) (h f : nat)
    (d : luv_handle_t) (rest : list lua_value) (e' : E) (r : Z) :
  is_poll_handle (st w) (LUserdata h) ->
  hdata (st w) !! h = Some d ->
  uv_poll_start (loop (st w)) h (Z.lor UV_READABLE UV_WRITABLE) = (e', r) ->
  luv_poll_start (v :: LNil :: rest) w = luv_poll_start (v :: LStr "rw" :: rest) w
  /\ luv_poll_start [v] w = luv_poll_start [v; LStr "rw"] w
  /\ luv_poll_start [LUserdata h; LNil; LFunction f] w
     = (upd (set_loop e')
            (upd (set_hdata h (set_callback d LUV_POLL (LFunction f))) w),
        Ok (if r <? 0
            then [LNil; LStr (uv_err_name r ++ ": " ++ uv_strerror r);
                  LStr (uv_err_name r)]
            else [LInt r])).
Proof.
  intros Hh Hd Hstart. split; [reflexivity|]. split; [reflexivity|].
  unfold luv_poll_start. unfold bind at 1.
  rewrite luv_check_poll_accepts by exact Hh.
  unfold luv_check_callback, luv_result, luv_error. unfold_monad. simpl.
  rewrite Hd. simpl.
  change (switch Nat.eqb 2%nat luv_poll_start_cases 0)
    with (Z.lor UV_READABLE UV_WRITABLE).
  rewrite Hstart. unfold upd. simpl. rewrite Hd. by destruct (r <? 0).
Qed.

End Poll.

(** ** Dispatch into host code *)

Lemma switch_hit {V} (cases : list (Z * V)) (k : Z) (v dflt : V) :
  NoDup (cases.*1) -> (k, v) ∈ cases -> switch Z.eqb k cases dflt = v.
Proof.
  induction cases as [|[k0 v0] rest IH]; intros Hnd Hin.
  - by apply elem_of_nil in Hin.
  - simpl in Hnd. apply NoDup_cons in Hnd as [Hk0 Hnd].
    unfold switch. simpl.
    destruct (Z.eqb_spec k k0) as [->|Hne]; simpl.
    + apply elem_of_cons in Hin as [Heq|Hin]; [congruence|].
      exfalso. apply Hk0. apply list_elem_of_fmap. by exists (k0, v).
    + apply elem_of_cons in Hin as [Heq|Hin]; [congruence|].
      by apply IH.
Qed.


Section Dispatch.
Context {E : Type} `{!Engine E} `{!Host E}.

(** The protected call always comes back: the callable is recorded as
    entered once, and the state is the one it left, plus the report if
    it raised. *)
Lemma pcall_returns (f : lua_value) (args : list lua_value) (w : World E) :
  exists z, pcall f args w
            = (MkWorld (after_call f args (st w)) (calls w ++ [(f, args)]), Ok z).
Proof.
  unfold pcall, after_call.
  destruct (host_call f args (st w)) as [s' [vs|e]]; simpl; eauto.
Qed.

Lemma call_callback_returns (d : luv_handle_t) (f : lua_value)
    (payload : list lua_value) (w : World E) :
  get_callback d LUV_POLL = Some f ->
  luv_call_callback d LUV_POLL payload w
  = (MkWorld (after_call f payload (st w)) (calls w ++ [(f, payload)]), Ok tt).
Proof.
  intros Hf. unfold luv_call_callback. rewrite Hf.
  destruct (pcall_returns f payload w) as [z Hz].
  unfold bind. by rewrite Hz.
Qed.

(** Every supported combination of event kinds is a case of the switch
    in [luv_poll_cb], with the label of the combination. *)
Lemma label_in_cases (r wr dd p : bool) :
  (r || wr || dd || p) = true ->
  (dd = true -> LUV_UV_VERSION_GEQ 1 9 0 = true) ->
  (p = true -> LUV_UV_VERSION_GEQ 1 14 0 = true) ->
  (event_mask r wr dd p, event_label r wr dd p) ∈ luv_poll_cb_cases.
Proof.
  intros Hany H9 H14. unfold luv_poll_cb_cases.
  destruct dd; [rewrite (H9 eq_refl)|]; (destruct p; [rewrite (H14 eq_refl)|]);
    destruct r, wr; try discriminate Hany;
    unfold event_mask, event_label, flag; rewrite ?Z.lor_0_r, ?Z.lor_0_l;
    rewrite !elem_of_app, !elem_of_cons; simpl; auto 20.
Qed.

Lemma event_label_inj (r wr dd p r' wr' dd' p' : bool) :
  event_label r wr dd p = event_label r' wr' dd' p' ->
  (r, wr, dd, p) = (r', wr', dd', p').
Proof.
  destruct r, wr, dd, p, r', wr', dd', p'; simpl; intros Heq;
    first [reflexivity | discriminate Heq].
Qed.

(** C2. On an engine whose switch is well formed (distinct case labels),
    a readiness delivery with non-negative status for any supported,
    non-empty combination of readable, writable, disconnect and
    prioritized enters the registered callable exactly once, with nil and
    the label of that combination; different combinations have different
    labels; the table has the 15 labels on an engine with all event
    kinds and the 3 labels r, w, rw on one with neither optional kind. *)
Theorem poll_cb_label_lookup (w : World E) (h : nat) (d : luv_handle_t)
    (f : lua_value) (status : Z) (r wr dd p : bool) :
  NoDup (luv_poll_cb_cases.*1) ->
  0 <= status ->
  hdata (st w) !! h = Some d ->
  get_callback d LUV_POLL = Some f ->
  (r || wr || dd || p) = true ->
  (dd = true -> LUV_UV_VERSION_GEQ 1 9 0 = true) ->
  (p = true -> LUV_UV_VERSION_GEQ 1 14 0 = true) ->
  let payload := [LNil; LStr (event_label r wr dd p)] in
  luv_poll_cb h status (event_mask r wr dd p) w
    = (MkWorld (after_call f payload (st w)) (calls w ++ [(f, payload)]), Ok tt)
  /\ (forall r' wr' dd' p',
        event_label r wr dd p = event_label r' wr' dd' p' ->
        (r, wr, dd, p) = (r', wr', dd', p'))
  /\ (LUV_UV_VERSION_GEQ 1 14 0 = true ->
      luv_poll_cb_cases.*2
      = ["r"; "w"; "rw"; "d"; "rd"; "wd"; "rwd";
         "p"; "rp"; "wp"; "rwp"; "dp"; "rdp"; "wdp"; "rwdp"])
  /\ (LUV_UV_VERSION_GEQ 1 9 0 = false ->
      luv_poll_cb_cases.*2 = ["r"; "w"; "rw"]).
Proof.
  intros Hnd Hst Hd Hf Hany H9 H14 payload.
  split; [|split; [|split]].
  - unfold luv_poll_cb. unfold bind at 1. unfold gets. rewrite Hd.
    destruct (Z.ltb_spec status 0) as [|_]; [lia|].
    unfold bind, ret.
    rewrite (switch_hit _ _ (event_label r wr dd p) "" Hnd
               (label_in_cases r wr dd p Hany H9 H14)).
    by apply call_callback_returns.
  - apply event_label_inj.
  - intros G14. unfold luv_poll_cb_cases. rewrite G14.
    assert (G9 : LUV_UV_VERSION_GEQ 1 9 0 = true).
    { unfold LUV_UV_VERSION_GEQ in *. apply Z.leb_le in G14. apply Z.leb_le.
      change (Z.lor (Z.lor (Z.shiftl 1 16) (Z.shiftl 14 8)) 0) with 69120 in G14.
      change (Z.lor (Z.lor (Z.shiftl 1 16) (Z.shiftl 9 8)) 0) with 67840. lia. }
    rewrite G9. reflexivity.
  - intros G9. unfold luv_poll_cb_cases. rewrite G9.
    assert (G14 : LUV_UV_VERSION_GEQ 1 14 0 = false).
    { unfold LUV_UV_VERSION_GEQ in *. apply Z.leb_gt in G9. apply Z.leb_gt.
      change (Z.lor (Z.lor (Z.shiftl 1 16) (Z.shiftl 14 8)) 0) with 69120.
      change (Z.lor (Z.lor (Z.shiftl 1 16) (Z.shiftl 9 8)) 0) with 67840 in G9. lia. }
    rewrite G14. reflexivity.
Qed.



(** [log] touches the error stream only. *)
Lemma bridge_ok_log (hs : list nat) (x : diag) (s : luv_state E) :
  bridge_ok hs s -> bridge_ok hs (log x s).
Proof. intros Hok h Hh. exact (Hok h Hh). Qed.

(** One step of the walk on a consistent bridge: the trampoline enters
    the callable once with the handle's wrapper and comes back. *)
Lemma luv_walk_cb_returns (hs : list nat) (f : nat) (rest : list lua_value)
    (h : nat) (w : World E) :
  h ∈ hs ->
  bridge_ok hs (st w) ->
  luv_walk_cb (LFunction f :: rest) h w
  = (MkWorld (after_call (LFunction f) [LUserdata h] (st w))
             (calls w ++ [(LFunction f, [LUserdata h])]), Ok tt).
Proof.
  intros Hh Hok. destruct (Hok h Hh) as (d & Hd & Href & Hreg).
  unfold luv_walk_cb, luv_find_handle. unfold bind at 1. unfold gets at 1.
  rewrite Hd. destruct (Z.ltb_spec (ref d) 0x1000000) as [_|]; [|lia]. simpl.
  unfold bind at 1. unfold bind at 1. unfold gets, ret. rewrite Hreg. simpl.
  destruct (pcall_returns (LFunction f) [LUserdata h] w) as [z Hz].
  unfold bind. by rewrite Hz.
Qed.

Lemma uv_walk_from_returns (hs : list nat) (f : nat) (rest : list lua_value)
    (todo : list nat) :
  (forall args s, bridge_ok hs s -> bridge_ok hs (fst (host_call (LFunction f) args s))) ->
  forall w : World E,
    todo ⊆ hs ->
    bridge_ok hs (st w) ->
    exists w', uv_walk_from todo (luv_walk_cb (LFunction f :: rest)) w = (w', Ok tt)
               /\ calls w' = calls w ++ map (fun h => (LFunction f, [LUserdata h])) todo.
Proof.
  intros Hkeep. induction todo as [|h todo IH]; intros w Hsub Hok.
  - exists w. simpl. unfold ret. by rewrite app_nil_r.
  - assert (Hh : h ∈ hs) by (apply Hsub; left).
    assert (Hsub' : todo ⊆ hs) by (intros x Hx; apply Hsub; by right).
    simpl. unfold bind. rewrite (luv_walk_cb_returns hs f rest h w Hh Hok).
    edestruct (IH (MkWorld (after_call (LFunction f) [LUserdata h] (st w))
                           (calls w ++ [(LFunction f, [LUserdata h])])))
      as (w' & Hrun & Hcalls); [exact Hsub'| |].
    + simpl. unfold after_call.
      specialize (Hkeep [LUserdata h] (st w) Hok).
      destruct (host_call (LFunction f) [LUserdata h] (st w)) as [s' [vs|e]];
        simpl in *; [assumption|by apply bridge_ok_log].
    + exists w'. split; [exact Hrun|]. rewrite Hcalls. simpl.
      by rewrite <- app_assoc.
Qed.

(** C1. On a consistent bridge, and with a callable that keeps it
    consistent (it may raise, and it may stop or close the handle it is
    given), [luv_walk] returns normally and has entered the callable
    through the protected call exactly once for each handle that was
    queued when the walk began, in queue order, with that handle's
    wrapper: no error of the callable ends the walk early. *)
Theorem walk_enters_callback_once_per_handle (w : World E) (f : nat)
    (rest : list lua_value) :
  let hs := uv_handle_queue (loop (st w)) in
  bridge_ok hs (st w) ->
  (forall args s, bridge_ok hs s -> bridge_ok hs (fst (host_call (LFunction f) args s))) ->
  exists w', luv_walk (LFunction f :: rest) w = (w', Ok [])
             /\ calls w' = calls w ++ map (fun h => (LFunction f, [LUserdata h])) hs.
Proof.
  intros hs Hok Hkeep.
  destruct (uv_walk_from_returns hs f rest hs Hkeep w) as (w' & Hrun & Hcalls);
    [done|exact Hok|].
  exists w'. split; [|exact Hcalls].
  unfold luv_walk, uv_walk. unfold_monad. simpl. fold hs.
  unfold bind in Hrun. by rewrite Hrun.
Qed.

End Dispatch.

(** * The bindings at work on the reference engine *)

Example run_default_idle :
  snd (luv_run [] Ref.world0) = Ok [LBool false].
Proof. reflexivity. Qed.

Example run_once_with_active_watch :
  snd (luv_run [LStr "once"] (Ref.started 0)) = Ok [LBool true].
Proof. reflexivity. Qed.

Example run_rejects_number :
  snd (luv_run [LInt 1] Ref.world0) = Throw (ArgError 1 "invalid option '1'").
Proof. reflexivity. Qed.

Example poll_cb_readable_writable :
  calls (fst (luv_poll_cb 0%nat 0 3 (Ref.started 0)))
  = [(LFunction 0, [LNil; LStr "rw"])].
Proof. reflexivity. Qed.

Example poll_cb_error_empty_mask :
  calls (fst (luv_poll_cb 0%nat (-9) 0 (Ref.started 0)))
  = [(LFunction 0, [LStr "EBADF"; LStr ""])].
Proof. reflexivity. Qed.

Example poll_start_without_callable :
  snd (luv_poll_start [LUserdata 0] (Ref.with_polls 1))
  = Throw (ArgError 3 "Expected callable").
Proof. reflexivity. Qed.

Example minimal_engine_labels :
  @luv_pollevents _ Ref.minimal = ["r"; "w"; "rw"]
  /\ length (@luv_pollevents _ Ref.engine) = 15%nat.
Proof. split; reflexivity. Qed.

Example new_poll_bad_descriptor :
  snd (luv_new_poll [LInt (-1)] Ref.world0)
  = Ok [LNil; LStr "EBADF: bad file descriptor"; LStr "EBADF"].
Proof. reflexivity. Qed.

Example backend_fd_unsupported :
  snd (luv_backend_fd []
         (MkWorld (LuvState (Ref.RLoop [] ∅ (-1) 0 None) (-1) ∅ ∅ ∅ 0 1 []) []))
  = Ok [LNil]
  /\ snd (luv_backend_fd [] Ref.world0) = Ok [LInt 5].
Proof. split; reflexivity. Qed.

(** ** Facts about the reference environment *)

Lemma ref_cases_nodup : NoDup ((@luv_poll_cb_cases _ Ref.engine).*1).
Proof. apply (bool_decide_unpack _). by vm_compute. Qed.

Lemma ref_minimal_cases_nodup : NoDup ((@luv_poll_cb_cases _ Ref.minimal).*1).
Proof. apply (bool_decide_unpack _). by vm_compute. Qed.

(** Stopping a poll handle acts on the loop only. *)
Lemma luv_poll_stop_keeps_bridge {E} `{!Engine E} (args : list lua_value) (w : World E) :
  hdata (st (fst (luv_poll_stop args w))) = hdata (st w)
  /\ registry (st (fst (luv_poll_stop args w))) = registry (st w).
Proof.
  unfold luv_poll_stop, bind.
  destruct (luv_check_poll_pure w args) as [[h Hc]|[e Hc]]; rewrite Hc.
  - unfold luv_result, luv_error, native, ret.
    destruct (uv_poll_stop (loop (st w)) h) as [e1 r1].
    destruct (r1 <? 0); split; reflexivity.
  - split; reflexivity.
Qed.

Lemma ref_call_keeps_bridge (hs : list nat) (f : nat) (args : list lua_value)
    (s : luv_state Ref.rloop) :
  bridge_ok hs s -> bridge_ok hs (fst (host_call (LFunction f) args s)).
Proof.
  intros Hok. simpl. unfold Ref.call.
  destruct f as [|[|[|f]]]; simpl; try exact Hok.
  destruct (luv_poll_stop_keeps_bridge args (MkWorld s [])) as [Hd Hr].
  simpl in Hd, Hr. intros h Hh. destruct (Hok h Hh) as (d & H1 & H2 & H3).
  exists d. rewrite Hd, Hr. auto.
Qed.

Lemma ref_three_polls_bridge_ok :
  bridge_ok [0; 1; 2]%nat (st (Ref.with_polls 3)).
Proof.
  intros h Hh. exists (LuvHandle (Z.of_nat h + 1) None None).
  repeat (apply elem_of_cons in Hh as [->|Hh];
          [split; [by vm_compute|split; by vm_compute]|]).
  by apply elem_of_nil in Hh.
Qed.

(** ** The theorems at concrete inputs *)

Lemma luv_run_sets_and_resets_mode_witness :
  luv_runmodes !! 2%nat = Some "nowait"
  /\ uv_run (upd (set_mode 2) (Ref.started 0)) 2
     = (upd (set_mode 2) (Ref.started 0), 1)
  /\ luv_loop_mode [] (upd (set_mode 2) (Ref.started 0))
     = (upd (set_mode 2) (Ref.started 0), Ok [LStr "nowait"])
  /\ mode (st (fst (luv_run [LStr "nowait"] (Ref.started 0)))) = -1
  /\ luv_loop_mode [] (fst (luv_run [LStr "nowait"] (Ref.started 0)))
     = (fst (luv_run [LStr "nowait"] (Ref.started 0)), Ok [LNil]).
Proof.
  assert (H1 : luv_runmodes !! 2%nat = Some "nowait") by reflexivity.
  assert (H2 : uv_run (upd (set_mode (Z.of_nat 2)) (Ref.started 0)) (Z.of_nat 2)
               = (upd (set_mode 2) (Ref.started 0), 1)) by (by vm_compute).
  destruct (luv_run_sets_and_resets_mode (Ref.started 0) _ 2 "nowait" [] [] 1 H1 H2)
    as (_ & Hq & _ & _ & Hm & Hn).
  split; [exact H1|]. split; [exact H2|]. split; [exact Hq|]. split; [exact Hm|exact Hn].
Defined.

Lemma luv_run_result_witness :
  (uv_run (upd (set_mode 1) (Ref.started 0)) 1 = (upd (set_mode 1) (Ref.started 0), 1)
   /\ snd (luv_run [LStr "once"] (Ref.started 0)) = Ok [LBool true])
  /\ (uv_run (upd (set_mode 0) Ref.world0) 0 = (upd (set_mode 0) Ref.world0, 0)
      /\ snd (luv_run [LStr "default"] Ref.world0) = Ok [LBool false])
  /\ (uv_run (upd (set_mode 2) Ref.failing) 2 = (upd (set_mode 2) Ref.failing, -22)
      /\ snd (luv_run [LStr "nowait"] Ref.failing)
         = Ok [LNil; LStr "EINVAL: invalid argument"; LStr "EINVAL"]).
Proof.
  assert (Ha : uv_run (upd (set_mode (Z.of_nat 1)) (Ref.started 0)) (Z.of_nat 1)
               = (upd (set_mode 1) (Ref.started 0), 1)) by (by vm_compute).
  assert (Hb : uv_run (upd (set_mode (Z.of_nat 0)) Ref.world0) (Z.of_nat 0)
               = (upd (set_mode 0) Ref.world0, 0)) by (by vm_compute).
  assert (Hc : uv_run (upd (set_mode (Z.of_nat 2)) Ref.failing) (Z.of_nat 2)
               = (upd (set_mode 2) Ref.failing, -22)) by (by vm_compute).
  destruct (luv_run_result (Ref.started 0) _ 1 "once" [] 1 eq_refl Ha) as (Hpos & _).
  destruct (luv_run_result Ref.world0 _ 0 "default" [] 0 eq_refl Hb) as (_ & Hzero & _).
  destruct (luv_run_result Ref.failing _ 2 "nowait" [] (-22) eq_refl Hc)
    as (_ & _ & Hneg & _).
  split; [split; [exact Ha|apply Hpos; lia]|].
  split; [split; [exact Hb|apply Hzero; reflexivity]|].
  split; [exact Hc|apply Hneg; lia].
Defined.

Lemma usage_errors_leave_world_witness :
  (c_str "bogus" ∉ luv_runmodes)
  /\ (c_str "d" ∉ @luv_pollevents _ Ref.minimal)
  /\ ~ @is_poll_handle _ Ref.minimal (st (Ref.with_polls 1)) (LInt 3)
  /\ @luv_run _ Ref.minimal [LStr "bogus"] (Ref.with_polls 1)
     = (Ref.with_polls 1, Throw (ArgError 1 "invalid option 'bogus'"))
  /\ @luv_poll_start _ Ref.minimal [LUserdata 0; LStr "d"; LFunction 0] (Ref.with_polls 1)
     = (Ref.with_polls 1, Throw (ArgError 2 "invalid option 'd'"))
  /\ (exists e, @luv_poll_stop _ Ref.minimal [LInt 3] (Ref.with_polls 1)
                = (Ref.with_polls 1, Throw e)).
Proof.
  assert (H1 : c_str "bogus" ∉ luv_runmodes).
  { apply (bool_decide_unpack _). by vm_compute. }
  assert (H2 : c_str "d" ∉ @luv_pollevents _ Ref.minimal).
  { apply (bool_decide_unpack _). by vm_compute. }
  assert (H3 : ~ @is_poll_handle _ Ref.minimal (st (Ref.with_polls 1)) (LInt 3)).
  { intros (h & Heq & _). discriminate Heq. }
  assert (H4 : @is_poll_handle _ Ref.minimal (st (Ref.with_polls 1)) (LUserdata 0)).
  { exists 0%nat. split; [reflexivity|]. split; [by vm_compute|].
    split; [by vm_compute|]. eexists. by vm_compute. }
  destruct (@usage_errors_leave_world _ Ref.minimal (Ref.with_polls 1) "bogus" "d"
              (LInt 3) (LUserdata 0) [] [] [LFunction 0] H1 H2 H3)
    as (Hrun & _ & Hmask & _ & Hstop).
  split; [exact H1|]. split; [exact H2|]. split; [exact H3|].
  split; [exact Hrun|]. split; [exact (Hmask H4)|exact Hstop].
Defined.

Lemma create_poll_outcomes_witness :
  (native_init SocketDescriptor (loop (st Ref.world0)) 0%nat (to_int (-1))
   = (Ref.loop0, Ref.EBADF)
   /\ snd (create SocketDescriptor [LInt (-1)] Ref.world0)
      = Ok [LNil; LStr "EBADF: bad file descriptor"; LStr "EBADF"]
   /\ hdata (st (fst (create SocketDescriptor [LInt (-1)] Ref.world0))) = ∅)
  /\ (exists w2 d,
        create RawDescriptor [LInt 10] Ref.world0 = (w2, Ok [LUserdata 0])
        /\ hdata (st w2) !! 0%nat = Some d
        /\ registry (st w2) !! ref d = Some (LUserdata 0)).
Proof.
  assert (Ha : native_init SocketDescriptor (loop (st Ref.world0))
                 (next_ud (st Ref.world0)) (to_int (-1)) = (Ref.loop0, Ref.EBADF))
    by (by vm_compute).
  assert (Hb : native_init RawDescriptor (loop (st Ref.world0))
                 (next_ud (st Ref.world0)) (to_int 10)
               = (Ref.RLoop [0%nat] {[ 0%nat := Ref.Watch 8 10 false 0 ]} 5 (-1) None, 0))
    by (by vm_compute).
  destruct (create_poll_outcomes SocketDescriptor Ref.world0 (-1) [] _ _ Ha) as [Hfail _].
  destruct (create_poll_outcomes RawDescriptor Ref.world0 10 [] _ _ Hb) as [_ Hok].
  split.
  - destruct Hfail as (Hret & Hd & _ & _); [by vm_compute|].
    split; [exact Ha|]. split; [by rewrite Hret|]. rewrite Hret. exact Hd.
  - destruct Hok as (w2 & d & Hret & _ & Hd & Hr & _); [by vm_compute|].
    exists w2, d. split; [exact Hret|]. split; [exact Hd|exact Hr].
Defined.

Lemma poll_start_default_mask_witness :
  is_poll_handle (st (Ref.with_polls 1)) (LUserdata 0)
  /\ luv_poll_start [LUserdata 0; LNil; LFunction 0] (Ref.with_polls 1)
     = luv_poll_start [LUserdata 0; LStr "rw"; LFunction 0] (Ref.with_polls 1)
  /\ snd (luv_poll_start [LUserdata 0; LNil; LFunction 0] (Ref.with_polls 1))
     = Ok [LInt 0]
  /\ Ref.watches (loop (st (fst (luv_poll_start [LUserdata 0; LNil; LFunction 0]
                                   (Ref.with_polls 1))))) !! 0%nat
     = Some (Ref.Watch 8 10 true 3).
Proof.
  assert (Hh : is_poll_handle (st (Ref.with_polls 1)) (LUserdata 0)).
  { exists 0%nat. split; [reflexivity|]. split; [by vm_compute|].
    split; [by vm_compute|]. eexists. by vm_compute. }
  assert (Hd : hdata (st (Ref.with_polls 1)) !! 0%nat = Some (LuvHandle 1 None None))
    by (by vm_compute).
  assert (Hs : uv_poll_start (loop (st (Ref.with_polls 1))) 0%nat
                 (Z.lor UV_READABLE UV_WRITABLE)
               = (Ref.RLoop [0%nat] {[ 0%nat := Ref.Watch 8 10 true 3 ]} 5 (-1) None, 0))
    by (by vm_compute).
  destruct (poll_start_default_mask (Ref.with_polls 1) (LUserdata 0) 0 0 _ [LFunction 0]
              _ _ Hh Hd Hs) as (Hsame & _ & Hrun).
  split; [exact Hh|]. split; [exact Hsame|]. rewrite Hrun. split; by vm_compute.
Defined.

Lemma poll_cb_label_lookup_witness :
  NoDup ((@luv_poll_cb_cases _ Ref.engine).*1)
  /\ event_mask true true false false = 3
  /\ calls (fst (luv_poll_cb 0%nat 0 3 (Ref.started 0)))
     = [(LFunction 0, [LNil; LStr "rw"])]
  /\ snd (luv_poll_cb 0%nat 0 3 (Ref.started 0)) = Ok tt
  /\ calls (fst (@luv_poll_cb _ Ref.minimal _ 0%nat 0 1 (Ref.started 0)))
     = [(LFunction 0, [LNil; LStr "r"])].
Proof.
  assert (Hd : hdata (st (Ref.started 0)) !! 0%nat
               = Some (LuvHandle 1 None (Some (LFunction 0)))) by (by vm_compute).
  destruct (poll_cb_label_lookup (Ref.started 0) 0 _ (LFunction 0) 0
              true true false false ref_cases_nodup ltac:(lia) Hd eq_refl eq_refl
              ltac:(intros H; discriminate H) ltac:(intros H; discriminate H))
    as (Hfull & _).
  destruct (@poll_cb_label_lookup _ Ref.minimal _ (Ref.started 0) 0 _ (LFunction 0) 0
              true false false false ref_minimal_cases_nodup ltac:(lia) Hd eq_refl eq_refl
              ltac:(intros H; discriminate H) ltac:(intros H; discriminate H))
    as (Hmin & _).
  split; [exact ref_cases_nodup|]. split; [reflexivity|].
  change (event_mask true true false false) with 3 in Hfull.
  change (@event_mask _ Ref.minimal true false false false) with 1 in Hmin.
  rewrite Hfull, Hmin. split; [reflexivity|]. split; reflexivity.
Defined.


Lemma walk_enters_callback_once_per_handle_witness :
  bridge_ok [0; 1; 2]%nat (st (Ref.with_polls 3))
  /\ exists w', luv_walk [LFunction 2] (Ref.with_polls 3) = (w', Ok [])
                /\ calls w' = [ (LFunction 2, [LUserdata 0]);
                                (LFunction 2, [LUserdata 1]);
                                (LFunction 2, [LUserdata 2]) ].
Proof.
  split; [exact ref_three_polls_bridge_ok|].
  pose proof (walk_enters_callback_once_per_handle (Ref.with_polls 3) 2 []) as Hwalk.
  change (uv_handle_queue (loop (st (Ref.with_polls 3)))) with [0; 1; 2]%nat in Hwalk.
  destruct (Hwalk ref_three_polls_bridge_ok (ref_call_keeps_bridge _ 2))
    as (w' & Hrun & Hcalls).
  exists w'. split; [exact Hrun|exact Hcalls].
Defined.

(** ** Where the specification and the code part *)

(** C6 as stated fails: the mode string made of "once", a NUL and "x" is
    none of the three mode names, yet [luv_run] reads it as "once", runs
    the loop and answers a boolean. *)
Lemma luv_run_accepts_name_before_nul :
  let name := ("once" ++ String Ascii.zero "x")%string in
  (name ∉ luv_runmodes)
  /\ c_str name = "once"%string
  /\ luv_run [LStr name] (Ref.started 0) = luv_run [LStr "once"] (Ref.started 0)
  /\ snd (luv_run [LStr name] (Ref.started 0)) = Ok [LBool true].
Proof.
  cbv zeta. split; [apply (bool_decide_unpack _); by vm_compute|].
  split; [reflexivity|]. split; by vm_compute.
Qed.

(** C9 as stated fails: with one handle registered and no watch active,
    on an engine whose timeout query answers 0 when nothing is active,
    [luv_backend_timeout] answers 0 and not -1. *)
Lemma backend_timeout_idle_is_engine_answer :
  existsb (uv_is_active (loop (st (Ref.with_polls 1))))
          (uv_handle_queue (loop (st (Ref.with_polls 1)))) = false
  /\ uv_handle_queue (loop (st (Ref.with_polls 1))) = [0%nat]
  /\ @luv_backend_timeout _ Variants.idle_zero [] (Ref.with_polls 1)
     = (Ref.with_polls 1, Ok [LInt 0])
  /\ @luv_backend_timeout _ Variants.idle_zero [] (Ref.with_polls 1)
     <> (Ref.with_polls 1, Ok [LInt (-1)]).
Proof.
  split; [by vm_compute|]. split; [by vm_compute|].
  assert (H0 : @luv_backend_timeout _ Variants.idle_zero [] (Ref.with_polls 1)
               = (Ref.with_polls 1, Ok [LInt 0])) by (by vm_compute).
  split; [exact H0|]. rewrite H0. intros Heq. discriminate Heq.
Qed.


(** * Further properties of the bindings *)

(** ** Option tables and version gates *)

Lemma option_index_lookup (lst : list string) (name : string) (k i : nat) :
  NoDup lst -> lst !! k = Some name -> option_index lst name i = Some (i + k)%nat.
Proof.
  revert k i. induction lst as [|o rest IH]; intros k i Hnd Hk; [discriminate Hk|].
  apply NoDup_cons in Hnd as [Ho Hnd]. simpl.
  destruct k as [|k]; simpl in Hk.
  - injection Hk as ->. rewrite String.eqb_refl. f_equal. lia.
  - destruct (String.eqb_spec o name) as [->|_].
    + exfalso. apply Ho. eapply list_elem_of_lookup_2. exact Hk.
    + rewrite (IH k (S i) Hnd Hk). f_equal. lia.
Qed.

Lemma checkoption_accepts (args : list lua_value) (i : nat) (def : option string)
    (lst : list string) (name : string) (k : nat) :
  arg args i = Some (LStr name) ->
  NoDup lst -> lst !! k = Some name ->
  c_str name = name ->
  luaL_checkoption args i def lst = inr k.
Proof.
  intros Harg Hnd Hk Hc. unfold luaL_checkoption, luaL_optstring, luaL_checkstring.
  rewrite Harg.
  destruct def; simpl; rewrite Hc; by rewrite (option_index_lookup lst name k 0 Hnd Hk).
Qed.

Section Gates.
Context {E : Type} `{!Engine E}.

(** An engine that passes a later gate passes the earlier one. *)
Lemma version_gate_1_14_implies_1_9 :
  LUV_UV_VERSION_GEQ 1 14 0 = true -> LUV_UV_VERSION_GEQ 1 9 0 = true.
Proof.
  unfold LUV_UV_VERSION_GEQ. intros G14. apply Z.leb_le in G14. apply Z.leb_le.
  change (Z.lor (Z.lor (Z.shiftl 1 16) (Z.shiftl 14 8)) 0) with 69120 in G14.
  change (Z.lor (Z.lor (Z.shiftl 1 16) (Z.shiftl 9 8)) 0) with 67840. lia.
Qed.

Lemma luv_pollevents_nodup : NoDup luv_pollevents.
Proof.
  unfold luv_pollevents.
  destruct (LUV_UV_VERSION_GEQ 1 9 0), (LUV_UV_VERSION_GEQ 1 14 0);
    apply (bool_decide_unpack _); by vm_compute.
Qed.

(** The labels are C literals: none contains a NUL. *)
Lemma luv_pollevents_c_str (k : nat) (label : string) :
  luv_pollevents !! k = Some label -> c_str label = label.
Proof.
  intros Hk.
  assert (Hall : Forall (fun l => c_str l = l) luv_pollevents).
  { unfold luv_pollevents.
    destruct (LUV_UV_VERSION_GEQ 1 9 0), (LUV_UV_VERSION_GEQ 1 14 0);
      apply (bool_decide_unpack _); by vm_compute. }
  rewrite Forall_lookup in Hall. exact (Hall k label Hk).
Qed.

(** The two switches of [src/poll.c] agree with the table of labels:
    the mask [luv_poll_start] selects for the label at index [k] is a
    case of [luv_poll_cb] carrying the same label. *)
Lemma poll_tables_agree (k : nat) (label : string) :
  luv_pollevents !! k = Some label ->
  (switch Nat.eqb k luv_poll_start_cases 0, label) ∈ luv_poll_cb_cases
  /\ (exists ev, (k, ev) ∈ luv_poll_start_cases).
Proof.
  pose proof version_gate_1_14_implies_1_9 as Hmono.
  unfold luv_pollevents, luv_poll_start_cases, luv_poll_cb_cases.
  destruct (LUV_UV_VERSION_GEQ 1 14 0) eqn:G14;
    [rewrite (Hmono eq_refl)|destruct (LUV_UV_VERSION_GEQ 1 9 0) eqn:G9];
    intros Hk;
    do 15 (destruct k as [|k];
           [simpl in Hk;
            first [discriminate Hk
                  |injection Hk as <-;
                   split; [unfold switch; simpl; rewrite ?elem_of_cons; auto 20
                          |eexists; simpl; rewrite ?elem_of_cons; auto 20]]
           |]);
    simpl in Hk; discriminate Hk.
Qed.

End Gates.

(** ** Starting a poll handle *)

Section PollStart.
Context {E : Type} `{!Engine E}.

Lemma luv_check_poll_ok_inv (w w' : World E) (args : list lua_value) (h : nat) :
  luv_check_poll args 1 w = (w', Ok h) ->
  w' = w /\ is_Some (hdata (st w) !! h).
Proof.
  unfold luv_check_poll, luv_checkudata. unfold_monad. simpl.
  destruct args as [|v rest]; simpl; [discriminate|].
  destruct v as [| | | | |u]; simpl; try discriminate.
  destruct (bool_decide (meta (st w) !! u = Some "uv_poll")); simpl; [|discriminate].
  destruct (uv_handle_type (loop (st w)) u =? UV_POLL); simpl; [|discriminate].
  destruct (bool_decide_reflect (is_Some (hdata (st w) !! u))) as [Hd|Hd];
    simpl; [|discriminate].
  intros [= <- <-]. by split.
Qed.

(** What [luv_poll_start] does once its three arguments are accepted. *)
Lemma luv_poll_start_unfold (w : World E) (h f : nat) (d : luv_handle_t)
    (k : nat) (label : string) (rest : list lua_value) (e' : E) (r : Z) :
  is_poll_handle (st w) (LUserdata h) ->
  hdata (st w) !! h = Some d ->
  luv_pollevents !! k = Some label ->
  uv_poll_start (loop (st w)) h (switch Nat.eqb k luv_poll_start_cases 0) = (e', r) ->
  luv_poll_start (LUserdata h :: LStr label :: LFunction f :: rest) w
  = (upd (set_loop e')
         (upd (set_hdata h (set_callback d LUV_POLL (LFunction f))) w),
     Ok (if r <? 0
         then [LNil; LStr (uv_err_name r ++ ": " ++ uv_strerror r);
               LStr (uv_err_name r)]
         else [LInt r])).
Proof.
  intros Hh Hd Hk Hstart. unfold luv_poll_start. unfold bind at 1.
  rewrite luv_check_poll_accepts by exact Hh.
  rewrite (checkoption_accepts (LUserdata h :: LStr label :: LFunction f :: rest) 2
             (Some "rw") _ label k eq_refl luv_pollevents_nodup Hk
             (luv_pollevents_c_str k label Hk)).
  unfold luv_check_callback, luv_result, luv_error. unfold_monad. simpl.
  rewrite Hd. simpl. rewrite Hstart. unfold upd. simpl. rewrite Hd.
  by destruct (r <? 0).
Qed.

(** X4. A callable handed to [luv_poll_start] is installed before the
    engine is asked to start the watch: when the engine then reports an
    error, the answer is the named error, and the handle's slot already
    holds the new callable in place of the previous one. *)
Theorem poll_start_failure_keeps_new_callback (w : World E) (h f : nat)
    (d : luv_handle_t) (k : nat) (label : string) (rest : list lua_value)
    (e' : E) (r : Z) :
  is_poll_handle (st w) (LUserdata h) ->
  hdata (st w) !! h = Some d ->
  luv_pollevents !! k = Some label ->
  uv_poll_start (loop (st w)) h (switch Nat.eqb k luv_poll_start_cases 0) = (e', r) ->
  r < 0 ->
  exists w1 d1,
    luv_poll_start (LUserdata h :: LStr label :: LFunction f :: rest) w
    = (w1, Ok [LNil; LStr (uv_err_name r ++ ": " ++ uv_strerror r);
               LStr (uv_err_name r)])
    /\ hdata (st w1) !! h = Some d1
    /\ get_callback d1 LUV_POLL = Some (LFunction f)
    /\ ref d1 = ref d
    /\ loop (st w1) = e'.
Proof.
  intros Hh Hd Hk Hstart Hneg.
  eexists _, (set_callback d LUV_POLL (LFunction f)). split.
  - rewrite (luv_poll_start_unfold w h f d k label rest e' r Hh Hd Hk Hstart).
    destruct (Z.ltb_spec r 0); [reflexivity|lia].
  - simpl. split; [apply lookup_insert_eq|]. by repeat split.
Qed.

(** X5. [luv_poll_start] checks its callable after the handle and the
    mask and before it touches the handle or the engine: with a third
    argument that is absent, nil, a boolean or an integer it raises, and
    the world (the previous callable and the watch included) is as
    before. *)
Theorem poll_start_rejects_non_callable (w : World E) (h : nat) (m : lua_value)
    (label : string) (tail : list lua_value) :
  is_poll_handle (st w) (LUserdata h) ->
  label ∈ luv_pollevents ->
  m = LStr label \/ m = LNil ->
  match arg (LUserdata h :: m :: tail) 3 with
  | None | Some LNil | Some (LBool _) | Some (LInt _) => True
  | _ => False
  end ->
  exists e, luv_poll_start (LUserdata h :: m :: tail) w = (w, Throw e).
Proof.
  intros Hh Hlabel Hm Hcb0.
  assert (Hcb : forall g, arg (LUserdata h :: m :: tail) 3 <> Some (LFunction g)).
  { intros g Hg. by rewrite Hg in Hcb0. }
  clear Hcb0. unfold luv_poll_start. unfold bind at 1.
  rewrite luv_check_poll_accepts by exact Hh.
  assert (Hopt : exists k, luaL_checkoption (LUserdata h :: m :: tail) 2 (Some "rw")
                             luv_pollevents = inr k).
  { destruct Hm as [->| ->].
    - apply list_elem_of_lookup_1 in Hlabel as [k Hk]. exists k.
      by apply (checkoption_accepts (LUserdata h :: LStr label :: tail) 2
                  (Some "rw") _ label k eq_refl luv_pollevents_nodup Hk
                  (luv_pollevents_c_str k label Hk)).
    - exists 2%nat. reflexivity. }
  destruct Hopt as [k ->].
  unfold luv_check_callback. unfold_monad. simpl in Hcb |- *.
  destruct tail as [|v tail']; simpl in *; [eauto|].
  destruct v; simpl; eauto. exfalso. by eapply Hcb.
Qed.

Lemma luv_poll_stop_outcomes (w : World E) (args : list lua_value) :
  exists e' r, luv_poll_stop args w = (upd (set_loop e') w, r) \/ luv_poll_stop args w = (w, r).
Proof.
  destruct (luv_poll_stop args w) as [wf rf] eqn:Heq.
  unfold luv_poll_stop in Heq. unfold bind at 1 in Heq.
  destruct (luv_check_poll_pure w args) as [[h Hc]|[e Hc]]; rewrite Hc in Heq.
  - unfold luv_result, luv_error in Heq. unfold_monad.
    destruct (uv_poll_stop (loop (st w)) h) as [e1 r1].
    exists e1, rf. left. destruct (r1 <? 0); by injection Heq as <- <-.
  - exists (loop (st w)), rf. right. by injection Heq as <- <-.
Qed.

End PollStart.

(** ** Start, restart and delivery *)

Section StartDelivery.
Context {E : Type} `{!Engine E} `{!Host E}.

(** X3. The label given to [luv_poll_start] comes back from
    [luv_poll_cb]: for every label of the engine's table, the start
    selects a case of its switch (the default branch is not reached) and
    asks the engine for that case's mask, and a delivery of exactly that
    mask with non-negative status enters the callable given to the start
    once, with nil and the same label. *)
Theorem poll_start_then_delivery (w : World E) (h f : nat) (d : luv_handle_t)
    (k : nat) (label : string) (rest : list lua_value) (status : Z) :
  NoDup (luv_poll_cb_cases.*1) ->
  is_poll_handle (st w) (LUserdata h) ->
  hdata (st w) !! h = Some d ->
  luv_pollevents !! k = Some label ->
  0 <= status ->
  let ev := switch Nat.eqb k luv_poll_start_cases 0 in
  exists w1 ans,
    luv_poll_start (LUserdata h :: LStr label :: LFunction f :: rest) w = (w1, Ok ans)
    /\ (k, ev) ∈ luv_poll_start_cases
    /\ loop (st w1) = fst (uv_poll_start (loop (st w)) h ev)
    /\ luv_poll_cb h status ev w1
       = (MkWorld (after_call (LFunction f) [LNil; LStr label] (st w1))
                  (calls w ++ [(LFunction f, [LNil; LStr label])]), Ok tt).
Proof.
  intros Hnd Hh Hd Hk Hst ev.
  destruct (poll_tables_agree k label Hk) as [Hcase [ev' Hev']].
  destruct (uv_poll_start (loop (st w)) h ev) as [e' r] eqn:Hstart.
  eexists _, _. split.
  - exact (luv_poll_start_unfold w h f d k label rest e' r Hh Hd Hk Hstart).
  - split.
    + assert (Hkeys : forall cases : list (nat * Z),
                 (k, ev') ∈ cases -> (k, switch Nat.eqb k cases 0) ∈ cases).
      { induction cases as [|[k0 v0] cs IH]; intros Hin.
        - by apply elem_of_nil in Hin.
        - unfold switch. simpl. destruct (Nat.eqb_spec k k0) as [<-|Hne]; simpl.
          + left.
          + apply elem_of_cons in Hin as [Heq|Hin]; [congruence|].
            right. by apply IH. }
      exact (Hkeys _ Hev').
    + split; [reflexivity|].
      unfold luv_poll_cb. unfold bind at 1. unfold gets. simpl.
      rewrite lookup_insert_eq.
      destruct (Z.ltb_spec status 0) as [|_]; [lia|].
      unfold bind, ret. unfold ev.
      rewrite (switch_hit _ _ label "" Hnd Hcase).
      by rewrite (call_callback_returns (set_callback d LUV_POLL (LFunction f))
                    (LFunction f) _ _ eq_refl).
Qed.

(** Any delivery for a handle with a registered callable enters that
    callable once and returns. *)
Lemma luv_poll_cb_enters_once (w : World E) (h : nat) (d : luv_handle_t)
    (f : lua_value) (status events : Z) :
  hdata (st w) !! h = Some d ->
  get_callback d LUV_POLL = Some f ->
  exists payload s,
    luv_poll_cb h status events w = (MkWorld s (calls w ++ [(f, payload)]), Ok tt).
Proof.
  intros Hd Hf. unfold luv_poll_cb. unfold bind at 1. unfold gets. rewrite Hd.
  destruct (status <? 0); unfold bind, ret, modify;
    rewrite (call_callback_returns d f _ _ Hf); eauto.
Qed.

(** X6. Starting a started handle again replaces its callable: on an
    engine whose start leaves the kind of the handle alone, after a start
    with one callable and a second start with another, any delivery for
    the handle enters the second callable, once, and not the first. *)
Theorem poll_restart_replaces_callback (w : World E) (h f1 f2 : nat)
    (d : luv_handle_t) (k1 k2 : nat) (l1 l2 : string) (status events : Z) :
  (forall e ev, uv_handle_type (fst (uv_poll_start e h ev)) h = uv_handle_type e h) ->
  is_poll_handle (st w) (LUserdata h) ->
  hdata (st w) !! h = Some d ->
  luv_pollevents !! k1 = Some l1 ->
  luv_pollevents !! k2 = Some l2 ->
  exists w1 w2 a1 a2 payload,
    luv_poll_start [LUserdata h; LStr l1; LFunction f1] w = (w1, Ok a1)
    /\ luv_poll_start [LUserdata h; LStr l2; LFunction f2] w1 = (w2, Ok a2)
    /\ hdata (st w2) !! h = Some (set_callback d LUV_POLL (LFunction f2))
    /\ snd (luv_poll_cb h status events w2) = Ok tt
    /\ calls (fst (luv_poll_cb h status events w2))
       = calls w ++ [(LFunction f2, payload)].
Proof.
  intros Hty Hh Hd Hk1 Hk2.
  destruct (uv_poll_start (loop (st w)) h (switch Nat.eqb k1 luv_poll_start_cases 0))
    as [e1 r1] eqn:Hs1.
  pose proof (luv_poll_start_unfold w h f1 d k1 l1 [] e1 r1 Hh Hd Hk1 Hs1) as H1.
  set (w1 := upd (set_loop e1)
                 (upd (set_hdata h (set_callback d LUV_POLL (LFunction f1))) w)) in *.
  assert (Hh1 : is_poll_handle (st w1) (LUserdata h)).
  { destruct Hh as (h' & [= <-] & Hmeta & Hpoll & Hsome). exists h. simpl.
    repeat split; try assumption.
    - specialize (Hty (loop (st w)) (switch Nat.eqb k1 luv_poll_start_cases 0)).
      rewrite Hs1 in Hty. simpl in Hty. by rewrite Hty.
    - rewrite lookup_insert_eq. eauto. }
  assert (Hd1 : hdata (st w1) !! h = Some (set_callback d LUV_POLL (LFunction f1))).
  { simpl. apply lookup_insert_eq. }
  destruct (uv_poll_start (loop (st w1)) h (switch Nat.eqb k2 luv_poll_start_cases 0))
    as [e2 r2] eqn:Hs2.
  pose proof (luv_poll_start_unfold w1 h f2 _ k2 l2 [] e2 r2 Hh1 Hd1 Hk2 Hs2) as H2.
  set (w2 := upd (set_loop e2)
                 (upd (set_hdata h (set_callback (set_callback d LUV_POLL (LFunction f1))
                                                 LUV_POLL (LFunction f2))) w1)) in *.
  assert (Hd2 : hdata (st w2) !! h = Some (set_callback d LUV_POLL (LFunction f2))).
  { simpl. rewrite lookup_insert_eq. reflexivity. }
  destruct (luv_poll_cb_enters_once w2 h _ (LFunction f2) status events Hd2 eq_refl)
    as (payload & s & Hcb).
  exists w1, w2. eexists _, _, payload.
  split; [exact H1|]. split; [exact H2|]. split; [exact Hd2|].
  rewrite Hcb. split; reflexivity.
Qed.

(** Host code that leaves the data records of the queued handles alone
    does not change which of them pass the sanity check. *)
Lemma after_call_keeps_hdata (hs : list nat) (f : lua_value) (args : list lua_value)
    (s : luv_state E) :
  (forall a s0 h, h ∈ hs -> hdata (fst (host_call f a s0)) !! h = hdata s0 !! h) ->
  forall h, h ∈ hs -> hdata (after_call f args s) !! h = hdata s !! h.
Proof.
  intros Hkeep h Hh. unfold after_call. specialize (Hkeep args s h Hh).
  by destruct (host_call f args s) as [s' [vs|e]].
Qed.

Lemma uv_walk_from_sane_prefix (hs : list nat) (f : nat) (rest : list lua_value)
    (s0 : luv_state E) (todo : list nat) :
  (forall a s h, h ∈ hs ->
     hdata (fst (host_call (LFunction f) a s)) !! h = hdata s !! h) ->
  forall w : World E,
    todo ⊆ hs ->
    (forall h, h ∈ hs -> hdata (st w) !! h = hdata s0 !! h) ->
    exists w' new,
      uv_walk_from todo (luv_walk_cb (LFunction f :: rest)) w
      = (w', if forallb (luv_handle_sane s0) todo then Ok tt else Fault)
      /\ calls w' = calls w ++ new
      /\ length new = length (sane_prefix s0 todo)
      /\ Forall (fun c => fst c = LFunction f) new.
Proof.
  intros Hkeep. induction todo as [|h todo IH]; intros w Hsub Hsame.
  - exists w, []. simpl. unfold ret. rewrite app_nil_r. by repeat split.
  - assert (Hh : h ∈ hs) by (apply Hsub; left).
    assert (Hsub' : todo ⊆ hs) by (intros x Hx; apply Hsub; by right).
    simpl. unfold luv_handle_sane at 1 3. rewrite <- (Hsame h Hh).
    unfold bind at 1. unfold luv_walk_cb. unfold bind at 1. unfold gets at 1.
    destruct (hdata (st w) !! h) as [d|] eqn:Hd.
    + destruct (ref d <? 0x1000000) eqn:Href; simpl.
      * unfold luv_find_handle. unfold bind at 1. unfold bind at 1.
        unfold gets, ret.
        set (u := default LNil (registry (st w) !! ref d)).
        destruct (pcall_returns (LFunction f) [u] w) as [z Hz].
        unfold bind at 1. rewrite Hz.
        edestruct (IH (MkWorld (after_call (LFunction f) [u] (st w))
                               (calls w ++ [(LFunction f, [u])])))
          as (w' & new & Hrun & Hcalls & Hlen & Hall); [exact Hsub'| |].
        { intros h' Hh'. simpl.
          rewrite (after_call_keeps_hdata hs _ _ _ Hkeep h' Hh'). by apply Hsame. }
        exists w', ((LFunction f, [u]) :: new). split; [exact Hrun|].
        simpl in Hcalls. rewrite <- app_assoc in Hcalls. simpl in Hcalls.
        split; [exact Hcalls|]. split; [simpl; by rewrite Hlen|].
        by constructor.
      * exists w, []. unfold fault. rewrite app_nil_r. by repeat split.
    + exists w, []. unfold fault. simpl. rewrite app_nil_r. by repeat split.
Qed.

(** X2. [luv_walk] with a callable that leaves the data records of the
    queued handles alone: it never raises; it returns normally exactly
    when every queued handle passes the sanity check of [luv_walk_cb]
    (a data record whose reference is below 0x1000000), and otherwise
    stops at the first handle that does not; and it has entered the
    callable once for each handle before that one, and nothing else. *)
Theorem luv_walk_sanity_check (w : World E) (f : nat) (rest : list lua_value) :
  let hs := uv_handle_queue (loop (st w)) in
  (forall a s h, h ∈ hs ->
     hdata (fst (host_call (LFunction f) a s)) !! h = hdata s !! h) ->
  exists w' new,
    luv_walk (LFunction f :: rest) w
    = (w', if forallb (luv_handle_sane (st w)) hs then Ok [] else Fault)
    /\ calls w' = calls w ++ new
    /\ length new = length (sane_prefix (st w) hs)
    /\ Forall (fun c => fst c = LFunction f) new.
Proof.
  intros hs Hkeep.
  destruct (uv_walk_from_sane_prefix hs f rest (st w) hs Hkeep w)
    as (w' & new & Hrun & Hcalls & Hlen & Hall); [done|done|].
  exists w', new. split; [|by repeat split].
  unfold luv_walk, uv_walk. unfold_monad. simpl. fold hs.
  unfold bind in Hrun. rewrite Hrun.
  by destruct (forallb (luv_handle_sane (st w)) hs).
Qed.

End StartDelivery.

(** ** Arguments of the drive and of the constructors *)

Section Arguments.
Context {E : Type} `{!Engine E}.

(** X1. The mode argument of [luv_run] is optional: absent or nil it
    stands for "default", the engine's drive primitive is entered with
    mode 0 and the register holding 0, and the register is reset on
    return. *)
Theorem luv_run_default_mode (w w1 : World E) (rest : list lua_value) (r : Z) :
  uv_run (upd (set_mode 0) w) 0 = (w1, r) ->
  luv_run [] w = luv_run [LStr "default"] w
  /\ luv_run (LNil :: rest) w = luv_run (LStr "default" :: rest) w
  /\ fst (luv_run [] w) = upd (set_mode (-1)) w1
  /\ fst (luv_run (LNil :: rest) w) = upd (set_mode (-1)) w1.
Proof.
  intros Hrun.
  assert (H0 : luv_runmodes !! 0%nat = Some "default") by reflexivity.
  split; [reflexivity|]. split; [reflexivity|].
  change (luv_run [] w) with (luv_run [LStr "default"] w).
  change (luv_run (LNil :: rest) w) with (luv_run (LStr "default" :: rest) w).
  rewrite (luv_run_unfold w w1 0 "default" [] r H0 Hrun).
  by rewrite (luv_run_unfold w w1 0 "default" rest r H0 Hrun).
Qed.

Lemma to_int_wraps (n k : Z) : to_int (n + k * 2 ^ 32) = to_int n.
Proof.
  unfold to_int. replace (n + k * 2 ^ 32 + 2 ^ 31) with (n + 2 ^ 31 + k * 2 ^ 32) by lia.
  by rewrite Z_mod_plus_full.
Qed.

(** X7. The descriptor reaches the engine as a C [int]: [create] does on
    a host integer what it does on any other integer equal to it modulo
    2^32, the value passed lies in the 32-bit signed range, and an
    integer already in that range is passed unchanged.  With the
    descriptor absent, nil, or a boolean, [create] raises with the world
    unchanged: no wrapper has been allocated and the engine has not been
    called. *)
Theorem create_descriptor_as_c_int (md : poll_mode) (w : World E) (n k : Z)
    (b : bool) (rest : list lua_value) :
  create md (LInt (n + k * 2 ^ 32) :: rest) w = create md (LInt n :: rest) w
  /\ (exists e' r, native_init md (loop (st w)) (next_ud (st w)) (to_int n) = (e', r)
                   /\ loop (st (fst (create md (LInt n :: rest) w))) = e')
  /\ - 2 ^ 31 <= to_int n < 2 ^ 31
  /\ (- 2 ^ 31 <= n < 2 ^ 31 -> to_int n = n)
  /\ create md [] w = (w, Throw (TypeError 1 "number"))
  /\ create md (LNil :: rest) w = (w, Throw (TypeError 1 "number"))
  /\ create md (LBool b :: rest) w = (w, Throw (TypeError 1 "number")).
Proof.
  split; [|split; [|split; [|split]]].
  - destruct md; simpl; unfold luv_new_poll, luv_new_socket_poll; unfold_monad; simpl;
      by rewrite to_int_wraps.
  - destruct (native_init md (loop (st w)) (next_ud (st w)) (to_int n)) as [e' r] eqn:Hinit.
    exists e', r. split; [reflexivity|].
    destruct md; simpl in Hinit |- *;
      unfold luv_new_poll, luv_new_socket_poll, luv_newuserdata, luv_setup_handle,
        luv_error; unfold_monad; simpl; rewrite Hinit; simpl;
      by destruct (r <? 0).
  - unfold to_int. pose proof (Z.mod_pos_bound (n + 2 ^ 31) (2 ^ 32)). lia.
  - intros Hn. unfold to_int. rewrite Z.mod_small by lia. lia.
  - by destruct md.
Qed.

End Arguments.

(** ** The remaining entry points of the loop *)

Lemma checkoption_invalid_nodef (args : list lua_value) (i : nat) (lst : list string)
    (name : string) :
  arg args i = Some (LStr name) -> c_str name ∉ lst ->
  luaL_checkoption args i None lst
  = inl (ArgError i ("invalid option '" ++ c_str name ++ "'")).
Proof.
  intros Harg Hnot. unfold luaL_checkoption, luaL_checkstring.
  rewrite Harg. simpl. by rewrite option_index_none.
Qed.

Section LoopControl.
Context {E : Type} `{!Engine E} `{!LoopEngine E} `{!Helpers E}.

Lemma luv_loop_configure_options_nodup : NoDup luv_loop_configure_options.
Proof.
  unfold luv_loop_configure_options.
  destruct (LUV_UV_VERSION_GEQ 1 39 0); apply (bool_decide_unpack _); by vm_compute.
Qed.

(** X8. [luv_loop_configure] has no default option and raises before it
    calls the engine: on an option name whose text up to its first NUL
    is outside its table - which holds "metrics_idle_time" only on
    engines from 1.39.0 on -, on a missing or nil option, and for
    "block_signal" when the second argument is neither a string nor a
    number.  The world stays as it is. *)
Theorem loop_configure_usage_errors (w : World E) (name : string)
    (rest tail : list lua_value) :
  c_str name ∉ luv_loop_configure_options ->
  lua_isstring (arg (LStr "block_signal" :: tail) 2) = false ->
  luv_loop_configure (LStr name :: rest) w
    = (w, Throw (ArgError 1 ("invalid option '" ++ c_str name ++ "'")))
  /\ luv_loop_configure [] w = (w, Throw (TypeError 1 "string"))
  /\ luv_loop_configure (LNil :: rest) w = (w, Throw (TypeError 1 "string"))
  /\ (LUV_UV_VERSION_GEQ 1 39 0 = false ->
      luv_loop_configure (LStr "metrics_idle_time" :: rest) w
      = (w, Throw (ArgError 1 "invalid option 'metrics_idle_time'")))
  /\ luv_loop_configure (LStr "block_signal" :: tail) w
     = (w, Throw (ArgError 2 "block_signal option: expected signal as string or number")).
Proof.
  intros Hname Htail. split; [|split; [|split; [|split]]].
  - unfold luv_loop_configure.
    by rewrite (checkoption_invalid_nodef (LStr name :: rest) 1 _ name eq_refl Hname).
  - reflexivity.
  - reflexivity.
  - intros G. unfold luv_loop_configure, luv_loop_configure_options. by rewrite G.
  - unfold luv_loop_configure.
    rewrite (checkoption_accepts (LStr "block_signal" :: tail) 1 None _ "block_signal" 0
               eq_refl luv_loop_configure_options_nodup eq_refl eq_refl).
    unfold_monad. simpl.
    change (switch Nat.eqb 0%nat luv_loop_configure_cases 0) with UV_LOOP_BLOCK_SIGNAL.
    rewrite Z.eqb_refl. simpl in Htail. by rewrite Htail.
Qed.

(** X9. What [luv_loop_configure] asks of the engine.  "block_signal"
    passes the block-signal option together with the signal parsed from
    the second argument; "metrics_idle_time" (engines from 1.39.0 on,
    where the two option constants differ) passes the idle-time option
    and no signal, whatever follows the option name.  The engine's status
    is answered as an integer, or as the named error when negative. *)
Theorem loop_configure_dispatch (w : World E) (v : lua_value)
    (rest tail : list lua_value) (e1 e2 : E) (r1 r2 : Z) :
  lua_isstring (Some v) = true ->
  uv_loop_configure (loop (st w)) UV_LOOP_BLOCK_SIGNAL (Some (luv_parse_signal v))
    = (e1, r1) ->
  LUV_UV_VERSION_GEQ 1 39 0 = true ->
  UV_METRICS_IDLE_TIME <> UV_LOOP_BLOCK_SIGNAL ->
  uv_loop_configure (loop (st w)) UV_METRICS_IDLE_TIME None = (e2, r2) ->
  luv_loop_configure (LStr "block_signal" :: v :: rest) w
    = (upd (set_loop e1) w,
       Ok (if r1 <? 0
           then [LNil; LStr (uv_err_name r1 ++ ": " ++ uv_strerror r1);
                 LStr (uv_err_name r1)]
           else [LInt r1]))
  /\ luv_loop_configure (LStr "metrics_idle_time" :: tail) w
     = (upd (set_loop e2) w,
        Ok (if r2 <? 0
            then [LNil; LStr (uv_err_name r2 ++ ": " ++ uv_strerror r2);
                  LStr (uv_err_name r2)]
            else [LInt r2])).
Proof.
  intros Hv H1 G Hne H2. split.
  - unfold luv_loop_configure.
    rewrite (checkoption_accepts (LStr "block_signal" :: v :: rest) 1 None _
               "block_signal" 0 eq_refl luv_loop_configure_options_nodup eq_refl eq_refl).
    unfold luv_result, luv_error. unfold_monad. simpl.
    change (switch Nat.eqb 0%nat luv_loop_configure_cases 0) with UV_LOOP_BLOCK_SIGNAL.
    rewrite Z.eqb_refl. simpl in Hv. rewrite Hv. rewrite H1. by destruct (r1 <? 0).
  - assert (Hk : luv_loop_configure_options !! 1%nat = Some "metrics_idle_time").
    { unfold luv_loop_configure_options. by rewrite G. }
    assert (Hsw : switch Nat.eqb 1%nat luv_loop_configure_cases 0 = UV_METRICS_IDLE_TIME).
    { unfold luv_loop_configure_cases. by rewrite G. }
    unfold luv_loop_configure.
    rewrite (checkoption_accepts (LStr "metrics_idle_time" :: tail) 1 None _
               "metrics_idle_time" 1 eq_refl luv_loop_configure_options_nodup Hk eq_refl).
    unfold luv_result, luv_error. unfold_monad. simpl. rewrite Hsw.
    destruct (Z.eqb_spec UV_METRICS_IDLE_TIME UV_LOOP_BLOCK_SIGNAL) as [Heq|_];
      [contradiction|].
    rewrite H2. by destruct (r2 <? 0).
Qed.

(** X10. The two 64-bit clock readings are answered in the host's signed
    64-bit integer without a change of state: a reading below 2^63 is
    answered as it is, a reading from 2^63 on is answered as the
    negative number 2^64 lower. *)
Theorem clock_readings_as_host_integers (w : World E) (args : list lua_value) :
  0 <= uv_now (loop (st w)) < 2 ^ 64 ->
  0 <= uv_metrics_idle_time (loop (st w)) < 2 ^ 64 ->
  let now := uv_now (loop (st w)) in
  let idle_time := uv_metrics_idle_time (loop (st w)) in
  exists n i,
    luv_now args w = (w, Ok [LInt n])
    /\ luv_metrics_idle_time args w = (w, Ok [LInt i])
    /\ - 2 ^ 63 <= n < 2 ^ 63 /\ - 2 ^ 63 <= i < 2 ^ 63
    /\ (now < 2 ^ 63 -> n = now) /\ (2 ^ 63 <= now -> n = now - 2 ^ 64)
    /\ (idle_time < 2 ^ 63 -> i = idle_time)
    /\ (2 ^ 63 <= idle_time -> i = idle_time - 2 ^ 64).
Proof.
  intros Hnow Hidle now idle_time.
  assert (Hconv : forall u, 0 <= u < 2 ^ 64 ->
            - 2 ^ 63 <= lua_Integer_of_uint64 u < 2 ^ 63
            /\ (u < 2 ^ 63 -> lua_Integer_of_uint64 u = u)
            /\ (2 ^ 63 <= u -> lua_Integer_of_uint64 u = u - 2 ^ 64)).
  { intros u Hu. unfold lua_Integer_of_uint64.
    pose proof (Z.mod_pos_bound (u + 2 ^ 63) (2 ^ 64)) as Hb.
    split; [lia|]. split; intros Hc.
    - rewrite Z.mod_small by lia. lia.
    - replace (u + 2 ^ 63) with (u - 2 ^ 63 + 1 * 2 ^ 64) by lia.
      rewrite Z_mod_plus_full. rewrite Z.mod_small by lia. lia. }
  destruct (Hconv _ Hnow) as (Hn1 & Hn2 & Hn3).
  destruct (Hconv _ Hidle) as (Hi1 & Hi2 & Hi3).
  exists (lua_Integer_of_uint64 now), (lua_Integer_of_uint64 idle_time).
  split; [reflexivity|]. split; [reflexivity|].
  split; [exact Hn1|]. split; [exact Hi1|]. split; [exact Hn2|].
  split; [exact Hn3|]. split; [exact Hi2|exact Hi3].
Qed.

(** X11. [luv_loop_close]: when the engine refuses to close the loop
    (negative status, as for a busy loop) the answer is the named error
    and the context keeps its loop; only when the engine has closed it is
    the context's loop pointer cleared, and the answer is the status. *)
Theorem loop_close_outcomes (w : World E) (args : list lua_value) (e' : E) (r : Z) :
  uv_loop_close (loop (st w)) = (e', r) ->
  (r < 0 ->
     luv_loop_close args w
     = (upd (set_loop e') w,
        Ok [LNil; LStr (uv_err_name r ++ ": " ++ uv_strerror r); LStr (uv_err_name r)]))
  /\ (0 <= r ->
      luv_loop_close args w
      = (upd (luv_set_loop None) (upd (set_loop e') w), Ok [LInt r])).
Proof.
  intros Hclose. unfold luv_loop_close, luv_error. unfold_monad. simpl.
  rewrite Hclose. simpl.
  split; intros Hr; destruct (Z.ltb_spec r 0); try lia; reflexivity.
Qed.

Lemma luv_loop_configure_outcomes (w : World E) (args : list lua_value) :
  exists e' r,
    luv_loop_configure args w = (upd (set_loop e') w, r)
    \/ luv_loop_configure args w = (w, r).
Proof.
  destruct (luv_loop_configure args w) as [wf rf] eqn:Heq.
  unfold luv_loop_configure, luv_result, luv_error in Heq. unfold_monad.
  destruct (luaL_checkoption args 1 None luv_loop_configure_options) as [e|k];
    cbv beta iota zeta delta [ret throw] in Heq;
    [exists (loop (st w)), rf; right; by injection Heq as <- <-|].
  destruct (switch Nat.eqb k luv_loop_configure_cases 0 =? UV_LOOP_BLOCK_SIGNAL).
  - destruct (lua_isstring (arg args 2));
      [|exists (loop (st w)), rf; right; by injection Heq as <- <-].
    destruct (uv_loop_configure (loop (st w)) UV_LOOP_BLOCK_SIGNAL
                (Some (luv_parse_signal (default LNil (arg args 2))))) as [e1 r1].
    exists e1, rf. left. destruct (r1 <? 0); by injection Heq as <- <-.
  - destruct (uv_loop_configure (loop (st w))
                (switch Nat.eqb k luv_loop_configure_cases 0) None) as [e1 r1].
    exists e1, rf. left. destruct (r1 <? 0); by injection Heq as <- <-.
Qed.

(** X12. The control entry points - alive, stop, the two backend
    queries, now, update_time, mode, configure, idle time and poll stop -
    act on the native loop at most: whatever their arguments and outcome,
    they enter no host code, write nothing to the error stream, and leave
    the mode register, every data record, metatable and registry entry as
    they are.  The queries among them leave the whole world unchanged,
    and apart from the mode query they always return values. *)
Theorem control_entries_keep_bridge (c : control_entry) (args : list lua_value)
    (w : World E) :
  same_bridge w (fst (run_entry c args w))
  /\ (is_query c = true -> fst (run_entry c args w) = w)
  /\ (is_query c = true -> c <> LoopMode ->
      exists vs, snd (run_entry c args w) = Ok vs).
Proof.
  assert (Hupd : forall e', same_bridge w (upd (set_loop e') w)).
  { intros e'. by repeat split. }
  assert (Hrefl : same_bridge w w) by (by repeat split).
  destruct c; simpl.
  - unfold luv_loop_alive, luv_error. unfold_monad. simpl.
    destruct (uv_loop_alive (loop (st w)) <? 0); simpl; eauto.
  - unfold luv_stop. unfold_monad. simpl. split; [apply Hupd|]. split; discriminate.
  - unfold luv_backend_fd. unfold_monad. simpl.
    destruct (uv_backend_fd (loop (st w)) =? -1); simpl; eauto.
  - unfold luv_backend_timeout. unfold_monad. simpl. eauto.
  - unfold luv_now. unfold_monad. simpl. eauto.
  - unfold luv_update_time. unfold_monad. simpl.
    split; [apply Hupd|]. split; discriminate.
  - unfold luv_loop_mode. unfold_monad. simpl.
    destruct (mode (st w) =? -1); simpl; [by eauto|].
    destruct (array_get luv_runmodes (mode (st w))); simpl;
      (split; [exact Hrefl|]; split; [reflexivity|congruence]).
  - destruct (luv_loop_configure_outcomes w args) as (e' & r & [-> | ->]); simpl;
      (split; [auto|]; split; discriminate).
  - unfold luv_metrics_idle_time. unfold_monad. simpl. eauto.
  - destruct (luv_poll_stop_outcomes w args) as (e' & r & [-> | ->]); simpl;
      (split; [auto|]; split; discriminate).
Qed.

End LoopControl.

(** ** The further properties at concrete inputs *)

Lemma ref_call_keeps_hdata (f : nat) (args : list lua_value) (s : luv_state Ref.rloop)
    (h : nat) :
  hdata (fst (host_call (LFunction f) args s)) !! h = hdata s !! h.
Proof.
  simpl. unfold Ref.call. destruct f as [|[|[|f]]]; simpl; try reflexivity.
  destruct (luv_poll_stop_keeps_bridge args (MkWorld s [])) as [Hd _].
  simpl in Hd. by rewrite Hd.
Qed.

Lemma ref_start_keeps_type (h : nat) (e : Ref.rloop) (ev : Z) :
  uv_handle_type (fst (uv_poll_start e h ev)) h = uv_handle_type e h.
Proof.
  simpl. unfold Ref.start. destruct (Ref.watches e !! h) as [x|] eqn:Hx; simpl.
  - by rewrite lookup_insert_eq.
  - by rewrite Hx.
Qed.

Lemma ref_one_poll_is_handle : is_poll_handle (st (Ref.with_polls 1)) (LUserdata 0).
Proof.
  exists 0%nat. split; [reflexivity|]. split; [by vm_compute|].
  split; [by vm_compute|]. eexists. by vm_compute.
Qed.

Lemma luv_run_default_mode_witness :
  uv_run (upd (set_mode 0) (Ref.started 0)) 0 = (upd (set_mode 0) (Ref.started 0), 1)
  /\ luv_run [] (Ref.started 0) = luv_run [LStr "default"] (Ref.started 0)
  /\ mode (st (fst (luv_run [] (Ref.started 0)))) = -1
  /\ snd (luv_run [] (Ref.started 0)) = Ok [LBool true].
Proof.
  assert (Hrun : uv_run (upd (set_mode 0) (Ref.started 0)) 0
                 = (upd (set_mode 0) (Ref.started 0), 1)) by (by vm_compute).
  destruct (luv_run_default_mode (Ref.started 0) _ [] 1 Hrun) as (Hsame & _ & Hw & _).
  split; [exact Hrun|]. split; [exact Hsame|]. rewrite Hw.
  split; [reflexivity|by vm_compute].
Defined.

Lemma luv_walk_sanity_check_witness :
  uv_handle_queue (loop (st Variants.with_foreign_handle)) = [0; 1; 7]%nat
  /\ sane_prefix (st Variants.with_foreign_handle) [0; 1; 7]%nat = [0; 1]%nat
  /\ exists w' new,
       luv_walk [LFunction 2] Variants.with_foreign_handle = (w', Fault)
       /\ calls w' = new /\ length new = 2%nat.
Proof.
  split; [by vm_compute|]. split; [by vm_compute|].
  destruct (luv_walk_sanity_check Variants.with_foreign_handle 2 []
              (fun a s h _ => ref_call_keeps_hdata 2 a s h))
    as (w' & new & Hrun & Hcalls & Hlen & _).
  exists w', new.
  assert (Hbad : forallb (luv_handle_sane (st Variants.with_foreign_handle))
                   (uv_handle_queue (loop (st Variants.with_foreign_handle))) = false)
    by (by vm_compute).
  rewrite Hbad in Hrun. split; [exact Hrun|]. split; [exact Hcalls|].
  rewrite Hlen. by vm_compute.
Defined.

Lemma poll_start_then_delivery_witness :
  luv_pollevents !! 4%nat = Some "rd"
  /\ switch Nat.eqb 4%nat luv_poll_start_cases 0 = 5
  /\ exists w1,
       luv_poll_start [LUserdata 0; LStr "rd"; LFunction 0] (Ref.with_polls 1)
       = (w1, Ok [LInt 0])
       /\ calls (fst (luv_poll_cb 0%nat 0 5 w1)) = [(LFunction 0, [LNil; LStr "rd"])].
Proof.
  assert (Hd : hdata (st (Ref.with_polls 1)) !! 0%nat = Some (LuvHandle 1 None None))
    by (by vm_compute).
  destruct (poll_start_then_delivery (Ref.with_polls 1) 0 0 _ 4 "rd" [] 0
              ref_cases_nodup ref_one_poll_is_handle Hd eq_refl ltac:(lia))
    as (w1 & ans & Hstart & _ & _ & Hcb).
  split; [reflexivity|]. split; [reflexivity|].
  exists w1. split.
  - rewrite Hstart. f_equal.
    assert (Hans : snd (luv_poll_start [LUserdata 0; LStr "rd"; LFunction 0]
                          (Ref.with_polls 1)) = Ok [LInt 0]) by (by vm_compute).
    rewrite Hstart in Hans. exact Hans.
  - change (switch Nat.eqb 4%nat luv_poll_start_cases 0) with 5 in Hcb.
    rewrite Hcb. reflexivity.
Defined.

Lemma poll_start_failure_keeps_new_callback_witness :
  @is_poll_handle _ Variants.no_disconnect (st (Ref.started 0)) (LUserdata 0)
  /\ hdata (st (Ref.started 0)) !! 0%nat = Some (LuvHandle 1 None (Some (LFunction 0)))
  /\ exists w1 d1,
       @luv_poll_start _ Variants.no_disconnect
         [LUserdata 0; LStr "rd"; LFunction 1] (Ref.started 0)
       = (w1, Ok [LNil; LStr "EINVAL: invalid argument"; LStr "EINVAL"])
       /\ hdata (st w1) !! 0%nat = Some d1
       /\ get_callback d1 LUV_POLL = Some (LFunction 1).
Proof.
  assert (Hh : @is_poll_handle _ Variants.no_disconnect (st (Ref.started 0)) (LUserdata 0)).
  { exists 0%nat. split; [reflexivity|]. split; [by vm_compute|].
    split; [by vm_compute|]. eexists. by vm_compute. }
  assert (Hd : hdata (st (Ref.started 0)) !! 0%nat
               = Some (LuvHandle 1 None (Some (LFunction 0)))) by (by vm_compute).
  assert (Hs : @uv_poll_start _ Variants.no_disconnect (loop (st (Ref.started 0))) 0%nat
                 (switch Nat.eqb 4%nat (@luv_poll_start_cases _ Variants.no_disconnect) 0)
               = (loop (st (Ref.started 0)), -22)) by (by vm_compute).
  destruct (@poll_start_failure_keeps_new_callback _ Variants.no_disconnect
              (Ref.started 0) 0 1 _ 4 "rd" [] _ _ Hh Hd eq_refl Hs ltac:(lia))
    as (w1 & d1 & Hrun & Hd1 & Hcb & _ & _).
  split; [exact Hh|]. split; [exact Hd|].
  exists w1, d1. split; [exact Hrun|]. split; [exact Hd1|exact Hcb].
Defined.

Lemma poll_start_rejects_non_callable_witness :
  is_poll_handle (st (Ref.started 0)) (LUserdata 0)
  /\ ("w" ∈ luv_pollevents)
  /\ (exists e, luv_poll_start [LUserdata 0; LStr "w"; LInt 5] (Ref.started 0)
                = (Ref.started 0, Throw e))
  /\ (exists e, luv_poll_start [LUserdata 0; LNil] (Ref.started 0)
                = (Ref.started 0, Throw e)).
Proof.
  assert (Hh : is_poll_handle (st (Ref.started 0)) (LUserdata 0)).
  { exists 0%nat. split; [reflexivity|]. split; [by vm_compute|].
    split; [by vm_compute|]. eexists. by vm_compute. }
  assert (Hw : "w" ∈ luv_pollevents).
  { apply (bool_decide_unpack _). by vm_compute. }
  split; [exact Hh|]. split; [exact Hw|]. split.
  - exact (poll_start_rejects_non_callable (Ref.started 0) 0 (LStr "w") "w" [LInt 5]
             Hh Hw (or_introl eq_refl) I).
  - exact (poll_start_rejects_non_callable (Ref.started 0) 0 LNil "w" []
             Hh Hw (or_intror eq_refl) I).
Defined.

Lemma poll_restart_replaces_callback_witness :
  (forall (e : Ref.rloop) ev,
      uv_handle_type (fst (uv_poll_start e 0%nat ev)) 0%nat = uv_handle_type e 0%nat)
  /\ exists w1 w2 a1 a2 payload,
       luv_poll_start [LUserdata 0; LStr "r"; LFunction 0] (Ref.with_polls 1) = (w1, Ok a1)
       /\ luv_poll_start [LUserdata 0; LStr "w"; LFunction 1] w1 = (w2, Ok a2)
       /\ calls (fst (luv_poll_cb 0%nat 0 2 w2)) = [(LFunction 1, payload)].
Proof.
  assert (Hd : hdata (st (Ref.with_polls 1)) !! 0%nat = Some (LuvHandle 1 None None))
    by (by vm_compute).
  split; [exact (ref_start_keeps_type 0)|].
  destruct (poll_restart_replaces_callback (Ref.with_polls 1) 0 0 1 _ 0 1 "r" "w" 0 2
              (ref_start_keeps_type 0) ref_one_poll_is_handle Hd eq_refl eq_refl)
    as (w1 & w2 & a1 & a2 & payload & H1 & H2 & _ & _ & Hcalls).
  exists w1, w2, a1, a2, payload. split; [exact H1|]. split; [exact H2|exact Hcalls].
Defined.

Lemma loop_configure_usage_errors_witness :
  (c_str "metrics_idle_time" ∉ @luv_loop_configure_options _ Clocked.older)
  /\ lua_isstring (arg [LStr "block_signal"; LBool true] 2) = false
  /\ @luv_loop_configure _ Clocked.older _ _ [LStr "metrics_idle_time"] (Clocked.world0 0)
     = (Clocked.world0 0, Throw (ArgError 1 "invalid option 'metrics_idle_time'"))
  /\ @luv_loop_configure _ Clocked.older _ _ [LStr "block_signal"; LBool true]
       (Clocked.world0 0)
     = (Clocked.world0 0,
        Throw (ArgError 2 "block_signal option: expected signal as string or number")).
Proof.
  assert (H1 : c_str "metrics_idle_time" ∉ @luv_loop_configure_options _ Clocked.older).
  { apply (bool_decide_unpack _). by vm_compute. }
  destruct (@loop_configure_usage_errors _ Clocked.older _ _ (Clocked.world0 0)
              "metrics_idle_time" [] [LBool true] H1 eq_refl)
    as (Hname & _ & _ & _ & Hsig).
  split; [exact H1|]. split; [reflexivity|]. split; [exact Hname|exact Hsig].
Defined.

Lemma loop_configure_dispatch_witness :
  lua_isstring (Some (LStr "sigprof")) = true
  /\ LUV_UV_VERSION_GEQ 1 39 0 = true
  /\ snd (luv_loop_configure [LStr "block_signal"; LStr "sigprof"] (Clocked.world0 0))
     = Ok [LInt 0]
  /\ Clocked.blocked
       (loop (st (fst (luv_loop_configure [LStr "block_signal"; LStr "sigprof"]
                         (Clocked.world0 0)))))
     = Some 27
  /\ Clocked.accounting
       (loop (st (fst (luv_loop_configure [LStr "metrics_idle_time"; LInt 3]
                         (Clocked.world0 0)))))
     = true.
Proof.
  assert (H1 : uv_loop_configure (loop (st (Clocked.world0 0))) UV_LOOP_BLOCK_SIGNAL
                 (Some (luv_parse_signal (LStr "sigprof")))
               = (Clocked.CLoop Ref.loop0 0 0 false false (Some 27) false, 0))
    by (by vm_compute).
  assert (H2 : uv_loop_configure (loop (st (Clocked.world0 0))) UV_METRICS_IDLE_TIME None
               = (Clocked.CLoop Ref.loop0 0 0 false false None true, 0))
    by (by vm_compute).
  assert (G : LUV_UV_VERSION_GEQ 1 39 0 = true) by (by vm_compute).
  destruct (loop_configure_dispatch (Clocked.world0 0) (LStr "sigprof") [] [LInt 3]
              _ _ _ _ eq_refl H1 G ltac:(discriminate) H2)
    as (Hblock & Hidle).
  split; [reflexivity|]. split; [reflexivity|].
  rewrite Hblock, Hidle. split; [reflexivity|]. split; reflexivity.
Defined.

Lemma clock_readings_as_host_integers_witness :
  0 <= uv_now (loop (st (Clocked.world0 (2 ^ 63 + 5)))) < 2 ^ 64
  /\ luv_now [] (Clocked.world0 (2 ^ 63 + 5))
     = (Clocked.world0 (2 ^ 63 + 5), Ok [LInt (5 - 2 ^ 63)])
  /\ luv_now [] (Clocked.world0 1000) = (Clocked.world0 1000, Ok [LInt 1000])
  /\ luv_metrics_idle_time [] (Clocked.world0 1000) = (Clocked.world0 1000, Ok [LInt 0]).
Proof.
  assert (Ha : 0 <= uv_now (loop (st (Clocked.world0 (2 ^ 63 + 5)))) < 2 ^ 64)
    by (by vm_compute).
  assert (Hb : 0 <= uv_metrics_idle_time (loop (st (Clocked.world0 (2 ^ 63 + 5)))) < 2 ^ 64)
    by (by vm_compute).
  assert (Hc : 0 <= uv_now (loop (st (Clocked.world0 1000))) < 2 ^ 64) by (by vm_compute).
  assert (Hd : 0 <= uv_metrics_idle_time (loop (st (Clocked.world0 1000))) < 2 ^ 64)
    by (by vm_compute).
  destruct (clock_readings_as_host_integers (Clocked.world0 (2 ^ 63 + 5)) [] Ha Hb)
    as (n & i & Hn & _ & _ & _ & _ & Hhigh & _).
  destruct (clock_readings_as_host_integers (Clocked.world0 1000) [] Hc Hd)
    as (n' & i' & Hn' & Hi' & _ & _ & Hlow & _ & Hilow & _).
  split; [exact Ha|]. split; [|split].
  - rewrite Hn. rewrite Hhigh; [reflexivity|by vm_compute].
  - rewrite Hn'. rewrite Hlow; [reflexivity|by vm_compute].
  - rewrite Hi'. rewrite Hilow; [reflexivity|by vm_compute].
Defined.

Lemma loop_close_outcomes_witness :
  uv_loop_close (loop (st (Clocked.one_poll 0))) = (loop (st (Clocked.one_poll 0)), -16)
  /\ luv_loop_close [] (Clocked.one_poll 0)
     = (Clocked.one_poll 0, Ok [LNil; LStr "EBUSY: resource busy or locked"; LStr "EBUSY"])
  /\ snd (luv_loop_close [] (Clocked.world0 0)) = Ok [LInt 0]
  /\ Clocked.detached (loop (st (fst (luv_loop_close [] (Clocked.world0 0))))) = true.
Proof.
  assert (Ha : uv_loop_close (loop (st (Clocked.one_poll 0)))
               = (loop (st (Clocked.one_poll 0)), -16)) by (by vm_compute).
  assert (Hb : uv_loop_close (loop (st (Clocked.world0 0)))
               = (loop (st (Clocked.world0 0)), 0)) by (by vm_compute).
  destruct (loop_close_outcomes (Clocked.one_poll 0) [] _ _ Ha) as [Hbusy _].
  destruct (loop_close_outcomes (Clocked.world0 0) [] _ _ Hb) as [_ Hdone].
  split; [exact Ha|]. split.
  - rewrite Hbusy by lia. by vm_compute.
  - rewrite Hdone by lia. split; reflexivity.
Defined.
